(** * CustomHomepageGrid: the widget/layout reconciliation logic

    A shallow embedding of
    [plugins/home/src/components/CustomHomepage/CustomHomepageGrid.tsx]:
    the layout document store ([useHomeStorage]), the default layout
    builder ([convertConfigToDefaultWidgets]) and the handlers of the
    [CustomHomepageGrid] component, with the properties of the
    specification stated over them.

    The component is a function of its props and of the state React
    keeps for it; a handler is a closure over the constants of the render
    that made it.  Here a render is a function from props and hooks to
    those constants, a handler a function from them to the next hooks,
    and an event runs the handler of a fresh render.  [Math.random] is an
    explicit generator, a thrown error is [None].  The catalog
    ([availableWidgetsFilter]) and what the component draws are outside:
    the catalog is a list that the props carry. *)

From Stdlib Require Import ZArith List String Ascii Bool Lia Arith.
From Stdlib Require Import Decimal DecimalString DecimalNat DecimalZ DecimalPos
  DecimalN.
Import ListNotations.

Set Implicit Arguments.

(* ===================================================================== *)
(** * JavaScript numbers *)
(* ===================================================================== *)

(** Grid positions and sizes are JavaScript numbers.  The grid counts in
    whole cells, so the finite values are taken to be integers; the three
    values that are not finite are kept, because [Math.max] of no argument
    is [-Infinity] and [JSON.stringify] does not print them. *)
Module JS.

Inductive number : Type :=
| Fin (z : Z)
| PosInfinity
| NegInfinity
| NaN.

Definition isFinite (a : number) : bool :=
  match a with Fin _ => true | _ => false end.

(** [a + b] *)
Definition add (a b : number) : number :=
  match a, b with
  | NaN, _ | _, NaN => NaN
  | Fin x, Fin y => Fin (x + y)
  | PosInfinity, NegInfinity | NegInfinity, PosInfinity => NaN
  | PosInfinity, _ | _, PosInfinity => PosInfinity
  | NegInfinity, _ | _, NegInfinity => NegInfinity
  end.

(** [Math.min(a, b)] *)
Definition min (a b : number) : number :=
  match a, b with
  | NaN, _ | _, NaN => NaN
  | NegInfinity, _ | _, NegInfinity => NegInfinity
  | PosInfinity, c | c, PosInfinity => c
  | Fin x, Fin y => Fin (Z.min x y)
  end.

(** [Math.max(a, b)] *)
Definition max (a b : number) : number :=
  match a, b with
  | NaN, _ | _, NaN => NaN
  | PosInfinity, _ | _, PosInfinity => PosInfinity
  | NegInfinity, c | c, NegInfinity => c
  | Fin x, Fin y => Fin (Z.max x y)
  end.

(** [Math.max(...l)]: the largest of the arguments, [-Infinity] when
    there is none. *)
Definition max_list (l : list number) : number :=
  fold_right max NegInfinity l.

(** [a <= b] *)
Definition leb (a b : number) : bool :=
  match a, b with
  | NaN, _ | _, NaN => false
  | NegInfinity, _ | _, PosInfinity => true
  | _, NegInfinity | PosInfinity, _ => false
  | Fin x, Fin y => Z.leb x y
  end.

(** [Number.MAX_VALUE], the largest finite double: (2 - 2^-52) * 2^1023,
    an integer. *)
Definition MAX_VALUE : Z := 2 ^ 1024 - 2 ^ 971.

(** [o ?? d] for an optional integer [o] *)
Definition nullish (o : option Z) (d : number) : number :=
  match o with
  | Some z => Fin z
  | None => d
  end.

(** what a string is in a condition: the empty string is falsy *)
Definition truthy (s : string) : bool :=
  match s with
  | EmptyString => false
  | String _ _ => true
  end.

(** [`${n}`] for an array index or a length *)
Definition string_of_nat (n : nat) : string :=
  NilZero.string_of_uint (Nat.to_uint n).

End JS.

(* ===================================================================== *)
(** * JSON values *)
(* ===================================================================== *)

(** a digit other than 0 *)
Inductive nzdigit : Type := Nz1 | Nz2 | Nz3 | Nz4 | Nz5 | Nz6 | Nz7 | Nz8 | Nz9.

(** What [JSON.parse] returns and [JSON.stringify] prints.  A number is
    the decimal that its text writes: an integer [JNum z], or
    [JDec neg whole frac last], the number of sign [neg], of integer part
    [whole] and of fraction digits [frac] followed by [last]; the last
    digit of a fraction is not 0, so a number has one representation.
    The rounding of a decimal to a double is not modelled.  A string is a
    sequence of bytes, UTF-8 for text outside ASCII.  An object is the
    list of its properties in the order they are enumerated. *)
Unset Elimination Schemes.
Inductive json : Type :=
| JNull
| JBool (b : bool)
| JNum (z : Z)
| JDec (neg : bool) (whole : N) (frac : Decimal.uint) (last : nzdigit)
| JStr (s : string)
| JArr (items : list json)
| JObj (props : list (string * json)).
Set Elimination Schemes.

(* ===================================================================== *)
(** * The data model of [./types] *)
(* ===================================================================== *)

(** Modelled from the spec: [./types] (the declarations of [Widget],
    [GridWidget], [LayoutConfiguration] and their schemas) is not among
    the sources.  The records follow section 3 and section 6 of the
    specification: the size bounds of a catalog widget are optional
    integers, a configuration entry carries a component and four
    integers. *)

(** the part of a React element that the code reads: the component data
    stored under ['core.extensionName'] *)
Record ReactElement : Type := mkElement {
  extensionName : option string
}.

Record Widget : Type := mkWidget {
  name : string;
  title : option string;
  description : option string;
  component : ReactElement;
  width : option Z;
  minWidth : option Z;
  maxWidth : option Z;
  height : option Z;
  minHeight : option Z;
  maxHeight : option Z
}.

(** [Layout] of react-grid-layout, with the fields this code writes; the
    two flags are booleans, as the persisted format of section 6 has
    them *)
Record Layout : Type := mkLayout {
  i : string;
  x : JS.number;
  y : JS.number;
  w : JS.number;
  h : JS.number;
  minW : option JS.number;
  maxW : option JS.number;
  minH : option JS.number;
  maxH : option JS.number;
  isDraggable : bool;
  isResizable : bool
}.

(** A [GridWidget] as it exists at run time: [handleLayoutChange] builds
    objects by spreading a widget that may be [undefined], so [id] and
    [settings] can be missing ([None]).  The settings are an object of
    JSON values. *)
Record GridWidget : Type := mkGridWidget {
  id : option string;
  layout : Layout;
  settings : option (list (string * json))
}.

(** the [component] of a configuration entry: a React element, or (the
    code allows it) the widget name itself *)
Inductive ConfigComponent : Type :=
| CElement (e : ReactElement)
| CName (s : string).

Record LayoutConfiguration : Type := mkLayoutConfiguration {
  conf_component : ConfigComponent;
  conf_x : Z;
  conf_y : Z;
  conf_width : Z;
  conf_height : Z
}.

(** Modelled from the spec: [LayoutConfigurationSchema.parse].  An entry
    of the format of section 6, which is what the record above holds, is
    accepted and returned; [parse] throws on anything else, and anything
    else has no representation here. *)
Definition LayoutConfigurationSchema_parse (conf : LayoutConfiguration)
  : LayoutConfiguration := conf.

(* ===================================================================== *)
(** * [Math.random] *)
(* ===================================================================== *)

(** [Math.random().toString(36).slice(2)] is a string the program does
    not control.  The generator is a sequence of such strings, whatever
    they are, and a count of the draws made so far. *)
Record Rng : Type := mkRng {
  suffixes : nat -> string;
  drawn : nat
}.

(** a computation that may draw random suffixes *)
Definition Rand (A : Type) : Type := Rng -> A * Rng.

Definition ret {A} (a : A) : Rand A := fun r => (a, r).

Definition bind {A B} (m : Rand A) (k : A -> Rand B) : Rand B :=
  fun r => let (a, r') := m r in k a r'.

Definition random_suffix : Rand string :=
  fun r => (suffixes r (drawn r), mkRng (suffixes r) (S (drawn r))).

Notation "x <- m ;; k" := (bind m (fun x => k))
  (at level 61, m at next level, right associativity).

(** [l.map((a, i) => f(a, i))] where [f] may draw; [n] is the index of
    the head of [l] *)
Fixpoint mapi_from {A B} (f : A -> nat -> Rand B) (n : nat) (l : list A)
  : Rand (list B) :=
  match l with
  | [] => ret []
  | a :: l' =>
      b <- f a n ;;
      bs <- mapi_from f (S n) l' ;;
      ret (b :: bs)
  end.

Definition mapi {A B} (f : A -> nat -> Rand B) (l : list A) : Rand (list B) :=
  mapi_from f 0 l.

(** lodash [compact]: the elements that are not falsy; here the elements
    are objects or [null] *)
Fixpoint compact {A} (l : list (option A)) : list A :=
  match l with
  | [] => []
  | Some a :: l' => a :: compact l'
  | None :: l' => compact l'
  end.

(* ===================================================================== *)
(** * The default layout builder *)
(* ===================================================================== *)

Open Scope string_scope.

(** [React.isValidElement(c.component)
       ? getComponentData(c.component, 'core.extensionName')
       : c.component]; [None] is [undefined] *)
Definition component_name (c : LayoutConfiguration) : option string :=
  match conf_component c with
  | CElement e => extensionName e
  | CName s => Some s
  end.

(** [availableWidgets.find(w => w.name === name)] *)
Definition find_widget (availableWidgets : list Widget) (nm : string)
  : option Widget :=
  find (fun w => String.eqb (name w) nm) availableWidgets.

(** the widget a configuration entry resolves to: the two early
    [return null] of the builder *)
Definition resolve (availableWidgets : list Widget) (c : LayoutConfiguration)
  : option Widget :=
  match component_name c with
  | None => None
  | Some nm =>
      if negb (JS.truthy nm) then None
      else find_widget availableWidgets nm
  end.

(** the object literal the builder returns for entry [c] at index [idx],
    resolved to [widget], with the random suffix [sfx] *)
Definition default_widget (c : LayoutConfiguration) (idx : nat)
    (widget : Widget) (sfx : string) : GridWidget :=
  let widgetId := name widget ++ "__" ++ JS.string_of_nat idx ++ sfx in
  {| id := Some widgetId;
     layout :=
       {| i := widgetId;
          x := JS.Fin (conf_x c);
          y := JS.Fin (conf_y c);
          w := JS.min (JS.nullish (maxWidth widget) (JS.Fin JS.MAX_VALUE))
                      (JS.Fin (conf_width c));
          h := JS.min (JS.nullish (maxHeight widget) (JS.Fin JS.MAX_VALUE))
                      (JS.Fin (conf_height c));
          minW := option_map JS.Fin (minWidth widget);
          maxW := option_map JS.Fin (maxWidth widget);
          minH := option_map JS.Fin (minHeight widget);
          maxH := option_map JS.Fin (maxHeight widget);
          isDraggable := false;
          isResizable := false |};
     settings := Some [] |}.

(** the callback of [config.map] *)
Definition convert_entry (availableWidgets : list Widget)
    (conf : LayoutConfiguration) (idx : nat) : Rand (option GridWidget) :=
  let c := LayoutConfigurationSchema_parse conf in
  match component_name c with
  | None => ret None
  | Some nm =>
      if negb (JS.truthy nm) then ret None
      else
        match find_widget availableWidgets nm with
        | None => ret None
        | Some widget =>
            sfx <- random_suffix ;;
            ret (Some (default_widget c idx widget sfx))
        end
  end.

Definition convertConfigToDefaultWidgets (config : list LayoutConfiguration)
    (availableWidgets : list Widget) : Rand (list GridWidget) :=
  r <- mapi (convert_entry availableWidgets) config ;;
  ret (compact r).

(* ===================================================================== *)
(** * [JSON.stringify] and [JSON.parse] *)
(* ===================================================================== *)

(** The text of a JSON value, as [JSON.stringify] writes it (no white
    space), and a parser of JSON texts: white space between the tokens,
    the escapes of a string with [\u] and four hexadecimal digits for any
    code unit, numbers with a fraction and an exponent.  A number is
    printed in full, with no exponent, where [JSON.stringify] writes one
    for the magnitudes from 1e21 on and below 1e-6; the parser reads both
    forms to the same value. *)
Module JSON.

Definition dquote : ascii := "034"%char.
Definition backslash : ascii := "092"%char.

Definition hex_digit (n : nat) : ascii :=
  ascii_of_nat (if n <? 10 then 48 + n else 87 + n)%nat.

Definition hex_value (c : ascii) : option nat :=
  let n := nat_of_ascii c in
  if ((48 <=? n) && (n <=? 57))%nat then Some (n - 48)%nat
  else if ((97 <=? n) && (n <=? 102))%nat then Some (n - 87)%nat
  else if ((65 <=? n) && (n <=? 70))%nat then Some (n - 55)%nat
  else None.

(** how one character of a string is written between the quotes *)
Definition escape_char (c : ascii) : string :=
  if Ascii.eqb c dquote then String backslash (String dquote "")
  else if Ascii.eqb c backslash then String backslash (String backslash "")
  else if Ascii.eqb c "008" then String backslash "b"
  else if Ascii.eqb c "012" then String backslash "f"
  else if Ascii.eqb c "010" then String backslash "n"
  else if Ascii.eqb c "013" then String backslash "r"
  else if Ascii.eqb c "009" then String backslash "t"
  else if (nat_of_ascii c <? 32)%nat then
    String backslash
      (String "u" (String "0" (String "0"
        (String (hex_digit (nat_of_ascii c / 16))
          (String (hex_digit (nat_of_ascii c mod 16)) "")))))
  else String c "".

Fixpoint escape (s : string) : string :=
  match s with
  | EmptyString => ""
  | String c s' => escape_char c ++ escape s'
  end.

Definition text_of_string (s : string) : string :=
  String dquote (escape s ++ String dquote "").

Definition text_of_number (z : Z) : string :=
  NilZero.string_of_int (Z.to_int z).

Definition char_of_nzdigit (d : nzdigit) : ascii :=
  match d with
  | Nz1 => "1" | Nz2 => "2" | Nz3 => "3" | Nz4 => "4" | Nz5 => "5"
  | Nz6 => "6" | Nz7 => "7" | Nz8 => "8" | Nz9 => "9"
  end%char.

(** the digits of a natural number, ["0"] for zero *)
Definition text_of_whole (n : N) : string :=
  NilZero.string_of_uint (N.to_uint n).

Definition text_of_sign (neg : bool) : string :=
  if neg then "-" else "".

Definition text_of_decimal (neg : bool) (whole : N) (frac : Decimal.uint)
    (last : nzdigit) : string :=
  text_of_sign neg ++ text_of_whole whole ++ "."
  ++ NilEmpty.string_of_uint frac ++ String (char_of_nzdigit last) "".

Fixpoint text (j : json) : string :=
  match j with
  | JNull => "null"
  | JBool true => "true"
  | JBool false => "false"
  | JNum z => text_of_number z
  | JDec neg whole frac last => text_of_decimal neg whole frac last
  | JStr s => text_of_string s
  | JArr items =>
      "[" ++
      (fix elements (l : list json) : string :=
         match l with
         | [] => "]"
         | v :: l' =>
             match l' with
             | [] => text v ++ "]"
             | _ :: _ => text v ++ "," ++ elements l'
             end
         end) items
  | JObj props =>
      "{" ++
      (fix members (l : list (string * json)) : string :=
         match l with
         | [] => "}"
         | (k, v) :: l' =>
             match l' with
             | [] => text_of_string k ++ ":" ++ text v ++ "}"
             | _ :: _ => text_of_string k ++ ":" ++ text v ++ "," ++ members l'
             end
         end) props
  end.

(** ** the parser *)

Definition is_ws (c : ascii) : bool :=
  Ascii.eqb c " " || Ascii.eqb c "009" || Ascii.eqb c "010" || Ascii.eqb c "013".

Fixpoint skip_ws (s : string) : string :=
  match s with
  | String c s' => if is_ws c then skip_ws s' else s
  | EmptyString => s
  end.

(** the code unit that four hexadecimal digits write *)
Definition code_unit (h3 h2 h1 h0 : ascii) : option N :=
  match hex_value h3, hex_value h2, hex_value h1, hex_value h0 with
  | Some a, Some b, Some c, Some d =>
      Some (4096 * N.of_nat a + 256 * N.of_nat b + 16 * N.of_nat c + N.of_nat d)%N
  | _, _, _, _ => None
  end.

(** the surrogates: the code units that write, two by two, the code
    points from 0x10000 on *)
Definition is_high_surrogate (u : N) : bool := ((55296 <=? u) && (u <? 56320))%N.
Definition is_low_surrogate (u : N) : bool := ((56320 <=? u) && (u <? 57344))%N.

Definition surrogate_pair (hi lo : N) : N :=
  (65536 + 1024 * (hi - 55296) + (lo - 56320))%N.

(** the bytes of the code point [u] in UTF-8; a surrogate that stands
    alone is written like any other code of three bytes *)
Definition utf8 (u : N) : string :=
  if (u <? 128)%N then String (ascii_of_N u) ""
  else if (u <? 2048)%N then
    String (ascii_of_N (192 + u / 64))
      (String (ascii_of_N (128 + u mod 64)) "")
  else if (u <? 65536)%N then
    String (ascii_of_N (224 + u / 4096))
      (String (ascii_of_N (128 + (u / 64) mod 64))
        (String (ascii_of_N (128 + u mod 64)) ""))
  else
    String (ascii_of_N (240 + u / 262144))
      (String (ascii_of_N (128 + (u / 4096) mod 64))
        (String (ascii_of_N (128 + (u / 64) mod 64))
          (String (ascii_of_N (128 + u mod 64)) ""))).

(** the characters after an opening quote, up to the closing one *)
Fixpoint read_string (s : string) : option (string * string) :=
  match s with
  | EmptyString => None
  | String c s' =>
      if Ascii.eqb c dquote then Some ("", s')
      else if Ascii.eqb c backslash then
        match s' with
        | EmptyString => None
        | String e s'' =>
            let continue (d : ascii) (rest : option (string * string)) :=
              match rest with
              | Some (t, r) => Some (String d t, r)
              | None => None
              end in
            let continue_with (d : string) (rest : option (string * string)) :=
              match rest with
              | Some (t, r) => Some (d ++ t, r)
              | None => None
              end in
            if Ascii.eqb e dquote then continue dquote (read_string s'')
            else if Ascii.eqb e backslash then continue backslash (read_string s'')
            else if Ascii.eqb e "/" then continue "/"%char (read_string s'')
            else if Ascii.eqb e "b" then continue "008"%char (read_string s'')
            else if Ascii.eqb e "f" then continue "012"%char (read_string s'')
            else if Ascii.eqb e "n" then continue "010"%char (read_string s'')
            else if Ascii.eqb e "r" then continue "013"%char (read_string s'')
            else if Ascii.eqb e "t" then continue "009"%char (read_string s'')
            else if Ascii.eqb e "u" then
              match s'' with
              | String h3 (String h2 (String h1 (String h0 s4))) =>
                  match code_unit h3 h2 h1 h0 with
                  | None => None
                  | Some u =>
                      if is_high_surrogate u then
                        match s4 with
                        | String b (String v (String l3 (String l2
                            (String l1 (String l0 s10))))) =>
                            match (if Ascii.eqb b backslash && Ascii.eqb v "u"
                                   then code_unit l3 l2 l1 l0 else None) with
                            | Some lo =>
                                if is_low_surrogate lo
                                then continue_with (utf8 (surrogate_pair u lo))
                                       (read_string s10)
                                else continue_with (utf8 u) (read_string s4)
                            | None => continue_with (utf8 u) (read_string s4)
                            end
                        | _ => continue_with (utf8 u) (read_string s4)
                        end
                      else continue_with (utf8 u) (read_string s4)
                  end
              | _ => None
              end
            else None
        end
      else if (nat_of_ascii c <? 32)%nat then None
      else
        match read_string s' with
        | Some (t, r) => Some (String c t, r)
        | None => None
        end
  end.

(** ** numbers *)

Definition is_digit (c : ascii) : bool :=
  ((48 <=? nat_of_ascii c) && (nat_of_ascii c <=? 57))%nat.

Definition is_exponent_mark (c : ascii) : bool :=
  Ascii.eqb c "e" || Ascii.eqb c "E".

(** the characters a number is written with *)
Definition is_number_char (c : ascii) : bool :=
  Ascii.eqb c "-" || is_digit c
  || Ascii.eqb c "." || is_exponent_mark c || Ascii.eqb c "+".

(** the longest prefix made of the characters of numbers, and the rest *)
Fixpoint span_number (s : string) : string * string :=
  match s with
  | String c s' =>
      if is_number_char c
      then let (tok, rest) := span_number s' in (String c tok, rest)
      else ("", s)
  | EmptyString => ("", "")
  end.

(** the longest prefix made of digits, and the rest *)
Fixpoint span_digits (s : string) : string * string :=
  match s with
  | String c s' =>
      if is_digit c
      then let (ds, rest) := span_digits s' in (String c ds, rest)
      else ("", s)
  | EmptyString => ("", "")
  end.

(** the integer part of a number: one digit at least, and no leading
    zero *)
Definition whole_of (ds : string) : option N :=
  match NilEmpty.uint_of_string ds with
  | Some d =>
      let n := N.of_uint d in
      if String.eqb (text_of_whole n) ds then Some n else None
  | None => None
  end.

(** what follows the mark of an exponent: a sign or none, and one digit
    at least *)
Definition exponent_of (s : string) : option Z :=
  let signed (neg : bool) (ds : string) :=
    match ds with
    | EmptyString => None
    | String _ _ =>
        match NilEmpty.uint_of_string ds with
        | Some d => Some (if neg then (- Z.of_uint d)%Z else Z.of_uint d)
        | None => None
        end
    end in
  match s with
  | String c s' =>
      if Ascii.eqb c "-" then signed true s'
      else if Ascii.eqb c "+" then signed false s'
      else signed false s
  | EmptyString => None
  end.

Fixpoint zeros (n : nat) : string :=
  match n with
  | O => ""
  | S n' => String "0" (zeros n')
  end.

Definition take (n : nat) (s : string) : string := substring 0 n s.
Definition drop (n : nat) (s : string) : string :=
  substring n (String.length s - n) s.

(** the digits of [ds.fs] times ten to the [e]: the point moves by [e]
    digits, over zeros where the digits end *)
Definition shift (ds fs : string) (e : Z) : string * string :=
  match e with
  | Z0 => (ds, fs)
  | Zpos p =>
      let n := Pos.to_nat p in
      (ds ++ take n (fs ++ zeros (n - String.length fs)), drop n fs)
  | Zneg p =>
      let n := Pos.to_nat p in
      (take (String.length ds - n) ds,
       zeros (n - String.length ds) ++ drop (String.length ds - n) ds ++ fs)
  end.

(** [fs] without the zeros it ends with *)
Fixpoint strip_zeros (fs : string) : string :=
  match fs with
  | EmptyString => ""
  | String c fs' =>
      match strip_zeros fs' with
      | EmptyString => if Ascii.eqb c "0" then "" else String c ""
      | String c' t => String c (String c' t)
      end
  end.

(** a string that is not empty, as what is before its last character
    and that character *)
Fixpoint split_last (s : string) : option (string * ascii) :=
  match s with
  | EmptyString => None
  | String c s' =>
      match split_last s' with
      | None => Some ("", c)
      | Some (init, l) => Some (String c init, l)
      end
  end.

Definition nzdigit_of_char (c : ascii) : option nzdigit :=
  if Ascii.eqb c "1" then Some Nz1
  else if Ascii.eqb c "2" then Some Nz2
  else if Ascii.eqb c "3" then Some Nz3
  else if Ascii.eqb c "4" then Some Nz4
  else if Ascii.eqb c "5" then Some Nz5
  else if Ascii.eqb c "6" then Some Nz6
  else if Ascii.eqb c "7" then Some Nz7
  else if Ascii.eqb c "8" then Some Nz8
  else if Ascii.eqb c "9" then Some Nz9
  else None.

Definition signed (neg : bool) (n : N) : Z :=
  if neg then (- Z.of_N n)%Z else Z.of_N n.

(** the number of sign [neg], of integer digits [ds] and of fraction
    digits [fs]: an integer when the fraction is of zeros only *)
Definition decimal (neg : bool) (ds fs : string) : option json :=
  match NilEmpty.uint_of_string ds with
  | None => None
  | Some d =>
      match split_last (strip_zeros fs) with
      | None => Some (JNum (signed neg (N.of_uint d)))
      | Some (init, l) =>
          match NilEmpty.uint_of_string init, nzdigit_of_char l with
          | Some f, Some nz => Some (JDec neg (N.of_uint d) f nz)
          | _, _ => None
          end
      end
  end.

(** the exponent after the digits [ds.fs], and the number they write
    with it *)
Definition scaled (neg : bool) (ds fs : string) (s : string) : option json :=
  match exponent_of s with
  | Some e => let (ds', fs') := shift ds fs e in decimal neg ds' fs'
  | None => None
  end.

(** the number a token writes: a minus sign or none, the integer part,
    a fraction or none, an exponent or none *)
Definition number_of (tok : string) : option json :=
  let (neg, s0) :=
    match tok with
    | String c s' => if Ascii.eqb c "-" then (true, s') else (false, tok)
    | EmptyString => (false, tok)
    end in
  let (ds, s1) := span_digits s0 in
  match whole_of ds with
  | None => None
  | Some n =>
      match s1 with
      | EmptyString => Some (JNum (signed neg n))
      | String c s2 =>
          if Ascii.eqb c "." then
            let (fs, s3) := span_digits s2 in
            match fs with
            | EmptyString => None
            | String _ _ =>
                match s3 with
                | EmptyString => decimal neg ds fs
                | String c' s4 =>
                    if is_exponent_mark c' then scaled neg ds fs s4 else None
                end
            end
          else if is_exponent_mark c then scaled neg ds "" s2
          else None
      end
  end.

Definition read_number (s : string) : option (json * string) :=
  let (tok, rest) := span_number s in
  match number_of tok with
  | Some v => Some (v, rest)
  | None => None
  end.

(** [s] without its prefix [lit] *)
Fixpoint strip_prefix (lit s : string) : option string :=
  match lit with
  | EmptyString => Some s
  | String a lit' =>
      match s with
      | String b s' => if Ascii.eqb a b then strip_prefix lit' s' else None
      | EmptyString => None
      end
  end.

Definition expect (lit : string) (v : json) (s : string) : option (json * string) :=
  match strip_prefix lit s with
  | Some rest => Some (v, rest)
  | None => None
  end.

(** [fuel] bounds the number of nested calls *)
Fixpoint parse_value (fuel : nat) (s : string) {struct fuel}
  : option (json * string) :=
  match fuel with
  | O => None
  | S fuel' =>
      match skip_ws s with
      | EmptyString => None
      | String c s' =>
          if Ascii.eqb c "n" then expect "null" JNull (String c s')
          else if Ascii.eqb c "t" then expect "true" (JBool true) (String c s')
          else if Ascii.eqb c "f" then expect "false" (JBool false) (String c s')
          else if Ascii.eqb c dquote then
            match read_string s' with
            | Some (t, rest) => Some (JStr t, rest)
            | None => None
            end
          else if Ascii.eqb c "[" then
            match skip_ws s' with
            | EmptyString => None
            | String c' rest =>
                if Ascii.eqb c' "]" then Some (JArr [], rest)
                else
                  match parse_elements fuel' s' with
                  | Some (items, rest') => Some (JArr items, rest')
                  | None => None
                  end
            end
          else if Ascii.eqb c "{" then
            match skip_ws s' with
            | EmptyString => None
            | String c' rest =>
                if Ascii.eqb c' "}" then Some (JObj [], rest)
                else
                  match parse_members fuel' s' with
                  | Some (props, rest') => Some (JObj props, rest')
                  | None => None
                  end
            end
          else read_number (String c s')
      end
  end

with parse_elements (fuel : nat) (s : string) {struct fuel}
  : option (list json * string) :=
  match fuel with
  | O => None
  | S fuel' =>
      match parse_value fuel' s with
      | None => None
      | Some (v, rest) =>
          match skip_ws rest with
          | EmptyString => None
          | String c rest' =>
              if Ascii.eqb c "," then
                match parse_elements fuel' rest' with
                | Some (vs, r) => Some (v :: vs, r)
                | None => None
                end
              else if Ascii.eqb c "]" then Some ([v], rest')
              else None
          end
      end
  end

with parse_members (fuel : nat) (s : string) {struct fuel}
  : option (list (string * json) * string) :=
  match fuel with
  | O => None
  | S fuel' =>
      match skip_ws s with
      | EmptyString => None
      | String c s' =>
          if Ascii.eqb c dquote then
            match read_string s' with
            | None => None
            | Some (k, rest) =>
                match skip_ws rest with
                | EmptyString => None
                | String c' rest' =>
                    if Ascii.eqb c' ":" then
                      match parse_value fuel' rest' with
                      | None => None
                      | Some (v, rest'') =>
                          match skip_ws rest'' with
                          | EmptyString => None
                          | String c'' r =>
                              if Ascii.eqb c'' "," then
                                match parse_members fuel' r with
                                | Some (ms, r') => Some ((k, v) :: ms, r')
                                | None => None
                                end
                              else if Ascii.eqb c'' "}" then Some ([(k, v)], r)
                              else None
                          end
                      end
                    else None
                end
            end
          else None
      end
  end.

(** [JSON.parse(s)]; [None] when it throws a [SyntaxError] *)
Definition parse (s : string) : option json :=
  match parse_value (2 * String.length s + 2) s with
  | Some (j, rest) =>
      match skip_ws rest with
      | EmptyString => Some j
      | String _ _ => None
      end
  | None => None
  end.

(** ** notions the proofs about the parser use *)

(** the text of the items of an array after the opening bracket, and of
    the properties of an object after the opening brace *)
Fixpoint elements_text (l : list json) : string :=
  match l with
  | [] => "]"
  | v :: l' =>
      match l' with
      | [] => text v ++ "]"
      | _ :: _ => text v ++ "," ++ elements_text l'
      end
  end.

Fixpoint members_text (l : list (string * json)) : string :=
  match l with
  | [] => "}"
  | (k, v) :: l' =>
      match l' with
      | [] => text_of_string k ++ ":" ++ text v ++ "}"
      | _ :: _ => text_of_string k ++ ":" ++ text v ++ "," ++ members_text l'
      end
  end.

(** the fuel that parsing the text of a value takes *)
Fixpoint size (j : json) : nat :=
  match j with
  | JArr items =>
      S ((fix elements_size (l : list json) : nat :=
            match l with
            | [] => O
            | v :: l' => S (size v + elements_size l')
            end) items)
  | JObj props =>
      S ((fix members_size (l : list (string * json)) : nat :=
            match l with
            | [] => O
            | (_, v) :: l' => S (size v + members_size l')
            end) props)
  | _ => 1%nat
  end.

Fixpoint elements_size (l : list json) : nat :=
  match l with
  | [] => O
  | v :: l' => S (size v + elements_size l')
  end.

Fixpoint members_size (l : list (string * json)) : nat :=
  match l with
  | [] => O
  | (_, v) :: l' => S (size v + members_size l')
  end.

Fixpoint number_chars (s : string) : bool :=
  match s with
  | EmptyString => true
  | String c s' => is_number_char c && number_chars s'
  end.

Fixpoint digit_chars (s : string) : bool :=
  match s with
  | EmptyString => true
  | String c s' => is_digit c && digit_chars s'
  end.

(** the text [rest] does not go on with a digit *)
Definition no_digit (rest : string) : Prop :=
  match rest with
  | EmptyString => True
  | String c _ => is_digit c = false
  end.

(** the text [rest] does not go on with a character of numbers, so a
    number before it ends where [rest] starts *)
Definition stops (rest : string) : Prop :=
  match rest with
  | EmptyString => True
  | String c _ => is_number_char c = false
  end.

(** the parser reads the text of [j] back, whatever follows it *)
Definition reads_back (j : json) : Prop :=
  forall fuel rest,
    (size j <= fuel)%nat -> stops rest ->
    parse_value fuel (text j ++ rest) = Some (j, rest).

End JSON.

(* ===================================================================== *)
(** * The layout document *)
(* ===================================================================== *)

(** [CustomHomepageGridStateV1]: [{ version: 1, pages: { default: ... } }] *)
Record Pages : Type := mkPages {
  default : list GridWidget
}.

Record CustomHomepageGridStateV1 : Type := mkState {
  version : Z;
  pages : Pages
}.

(** ** what [JSON.stringify] prints of the document

    A property whose value is [undefined] is left out; a number that is
    not finite is printed as [null].  The properties of a layout are
    written in one order, whichever literal made it: the order changes
    the text and not what is read back from it. *)
Module ToJSON.

Definition number (n : JS.number) : json :=
  match n with
  | JS.Fin z => JNum z
  | _ => JNull
  end.

(** a property that is left out when its value is [undefined] *)
Definition optional {A} (key : string) (f : A -> json) (o : option A)
  : list (string * json) :=
  match o with
  | Some a => [(key, f a)]
  | None => []
  end.

Definition of_layout (l : Layout) : json :=
  JObj ([("i", JStr (i l));
         ("x", number (x l));
         ("y", number (y l));
         ("w", number (w l));
         ("h", number (h l))]
        ++ optional "minW" number (minW l)
        ++ optional "maxW" number (maxW l)
        ++ optional "minH" number (minH l)
        ++ optional "maxH" number (maxH l)
        ++ [("isDraggable", JBool (isDraggable l));
            ("isResizable", JBool (isResizable l))]).

Definition of_widget (gw : GridWidget) : json :=
  JObj (optional "id" JStr (id gw)
        ++ [("layout", of_layout (layout gw))]
        ++ optional "settings" JObj (settings gw)).

Definition of_state (grid : CustomHomepageGridStateV1) : json :=
  JObj [("version", JNum (version grid));
        ("pages", JObj [("default", JArr (map of_widget (default (pages grid))))])].

End ToJSON.

(** [JSON.stringify(grid)] *)
Definition JSON_stringify (grid : CustomHomepageGridStateV1) : string :=
  JSON.text (ToJSON.of_state grid).

(** ** the schema of the document *)

(** Modelled from the spec: [CustomHomepageGridStateV1Schema] of
    [./types] is not among the sources.  The validation follows the
    persisted document format of section 6:
    [{ version: 1, pages: { default: [ { id: string, layout: { i: string,
    x, y, w, h: int, minW?, maxW?, minH?, maxH?: int, isDraggable,
    isResizable: bool }, settings: object } ] } }].  [None] is a
    validation error. *)
Module Schema.

(** the property [key] of a parsed object; of two properties with one
    key [JSON.parse] keeps the later *)
Fixpoint get (key : string) (props : list (string * json)) : option json :=
  match props with
  | [] => None
  | (k, v) :: props' =>
      match get key props' with
      | Some v' => Some v'
      | None => if String.eqb k key then Some v else None
      end
  end.

Definition as_string (o : option json) : option string :=
  match o with Some (JStr s) => Some s | _ => None end.

Definition as_int (o : option json) : option JS.number :=
  match o with Some (JNum z) => Some (JS.Fin z) | _ => None end.

Definition as_bool (o : option json) : option bool :=
  match o with Some (JBool b) => Some b | _ => None end.

Definition as_object (o : option json) : option (list (string * json)) :=
  match o with Some (JObj m) => Some m | _ => None end.

(** an optional integer: absent is accepted, a value of another type
    is an error *)
Definition optional_int (o : option json) : option (option JS.number) :=
  match o with
  | None => Some None
  | Some (JNum z) => Some (Some (JS.Fin z))
  | Some _ => None
  end.

Definition layout_of (j : json) : option Layout :=
  match j with
  | JObj m =>
      match as_string (get "i" m), as_int (get "x" m), as_int (get "y" m),
            as_int (get "w" m), as_int (get "h" m) with
      | Some vi, Some vx, Some vy, Some vw, Some vh =>
          match optional_int (get "minW" m), optional_int (get "maxW" m),
                optional_int (get "minH" m), optional_int (get "maxH" m),
                as_bool (get "isDraggable" m), as_bool (get "isResizable" m) with
          | Some vminW, Some vmaxW, Some vminH, Some vmaxH, Some vd, Some vr =>
              Some {| i := vi; x := vx; y := vy; w := vw; h := vh;
                      minW := vminW; maxW := vmaxW;
                      minH := vminH; maxH := vmaxH;
                      isDraggable := vd; isResizable := vr |}
          | _, _, _, _, _, _ => None
          end
      | _, _, _, _, _ => None
      end
  | _ => None
  end.

Definition widget_of (j : json) : option GridWidget :=
  match j with
  | JObj m =>
      match as_string (get "id" m), get "layout" m, as_object (get "settings" m) with
      | Some vid, Some jl, Some vs =>
          match layout_of jl with
          | Some vl => Some {| id := Some vid; layout := vl; settings := Some vs |}
          | None => None
          end
      | _, _, _ => None
      end
  | _ => None
  end.

Fixpoint widgets_of (l : list json) : option (list GridWidget) :=
  match l with
  | [] => Some []
  | j :: l' =>
      match widget_of j, widgets_of l' with
      | Some gw, Some gws => Some (gw :: gws)
      | _, _ => None
      end
  end.

(** [CustomHomepageGridStateV1Schema.parse(grid)] *)
Definition parse (grid : json) : option CustomHomepageGridStateV1 :=
  match grid with
  | JObj m =>
      match get "version" m, as_object (get "pages" m) with
      | Some (JNum 1), Some p =>
          match get "default" p with
          | Some (JArr l) =>
              match widgets_of l with
              | Some gws => Some {| version := 1; pages := {| default := gws |} |}
              | None => None
              end
          | _ => None
          end
      | _, _ => None
      end
  | _ => None
  end.

End Schema.

(* ===================================================================== *)
(** * The layout document store: [useHomeStorage] *)
(* ===================================================================== *)

(** [StorageValueSnapshot] of the storage API: what
    [useObservable(storageApi.observe$(key), storageApi.snapshot(key))]
    holds.  [value] is [undefined] unless the value is present. *)
Inductive Presence : Type := unknown | absent | present.

Record StorageValueSnapshot : Type := mkSnapshot {
  presence : Presence;
  value : option string
}.

(** the [useMemo] of [useHomeStorage]: the widgets read from the
    snapshot.  [JSON.parse] of [undefined] throws as it does of any text
    that is not JSON. *)
Definition load (homeSnapshot : StorageValueSnapshot)
    (defaultWidgets : list GridWidget) : list GridWidget :=
  match presence homeSnapshot with
  | absent => defaultWidgets
  | _ =>
      (* try *)
      match value homeSnapshot with
      | None => defaultWidgets
      | Some text =>
          match JSON.parse text with
          | None => defaultWidgets
          | Some grid =>
              match Schema.parse grid with
              | Some st => default (pages st)
              | None => defaultWidgets
              end
          end
      end
  end.

(** [setWidgets]: the text handed to [storageApi.set(key, ...)] *)
Definition save (value : list GridWidget) : string :=
  let grid := {| version := 1; pages := {| default := value |} |} in
  JSON_stringify grid.

(** the snapshot the store notifies after [storageApi.set(key, text)] *)
Definition stored (text : string) : StorageValueSnapshot :=
  {| presence := present; value := Some text |}.

(* ===================================================================== *)
(** * The grid interaction controller: [CustomHomepageGrid] *)
(* ===================================================================== *)

(** the props the logic reads; [availableWidgets] stands for the catalog
    that [useElementFilter(props.children, availableWidgetsFilter)]
    returns *)
Record Props : Type := mkProps {
  config : option (list LayoutConfiguration);
  availableWidgets : list Widget
}.

(** the state the component keeps between renders: the snapshot of the
    store and the two [React.useState] cells *)
Record Hooks : Type := mkHooks {
  homeSnapshot : StorageValueSnapshot;
  editMode : bool;
  addWidgetDialogOpen : bool
}.

(** the constants one render binds and its handlers close over *)
Record Render : Type := mkRender {
  defaultLayout : list GridWidget;
  widgets : list GridWidget
}.

(** the body of the component down to [useHomeStorage]; the default
    layout is computed anew, with new random ids, in every render *)
Definition render (props : Props) (hk : Hooks) : Rand Render :=
  dl <- match config props with
        | Some c => convertConfigToDefaultWidgets c (availableWidgets props)
        | None => ret []
        end ;;
  ret {| defaultLayout := dl; widgets := load (homeSnapshot hk) dl |}.

(** [widgets.find(w => w.layout.isResizable) !== undefined] *)
Definition editModeOn (widgets : list GridWidget) : bool :=
  match find (fun gw => isResizable (layout gw)) widgets with
  | Some _ => true
  | None => false
  end.

(** the first render: [React.useState(editModeOn)] takes its initial
    value *)
Definition mount (props : Props) (snapshot : StorageValueSnapshot) : Rand Hooks :=
  let hk0 := {| homeSnapshot := snapshot; editMode := false;
                addWidgetDialogOpen := false |} in
  rd <- render props hk0 ;;
  ret {| homeSnapshot := snapshot; editMode := editModeOn (widgets rd);
         addWidgetDialogOpen := false |}.

(** ** the setters *)

Definition setWidgets (value : list GridWidget) (hk : Hooks) : Hooks :=
  {| homeSnapshot := stored (save value);
     editMode := editMode hk;
     addWidgetDialogOpen := addWidgetDialogOpen hk |}.

Definition setEditMode (mode : bool) (hk : Hooks) : Hooks :=
  {| homeSnapshot := homeSnapshot hk;
     editMode := mode;
     addWidgetDialogOpen := addWidgetDialogOpen hk |}.

Definition setAddWidgetDialogOpen (open : bool) (hk : Hooks) : Hooks :=
  {| homeSnapshot := homeSnapshot hk;
     editMode := editMode hk;
     addWidgetDialogOpen := open |}.

(** ** the handlers

    Each handler is given the constants of the render it was created in
    and the current hooks; the list it hands to [setWidgets] has a name
    of its own. *)

(** the object literal of [handleAdd] *)
Definition added_widget (widgets : list GridWidget) (editMode : bool)
    (widget : Widget) (sfx : string) : GridWidget :=
  let widgetId :=
    name widget ++ "__" ++ JS.string_of_nat (List.length widgets + 1) ++ sfx in
  {| id := Some widgetId;
     layout :=
       {| i := widgetId;
          x := JS.Fin 0;
          y := JS.add
                 (JS.max_list
                    (map (fun gw => JS.add (y (layout gw)) (h (layout gw))) widgets))
                 (JS.Fin 1);
          w := JS.min (JS.nullish (maxWidth widget) (JS.Fin JS.MAX_VALUE))
                      (JS.nullish (width widget) (JS.Fin 12));
          h := JS.min (JS.nullish (maxHeight widget) (JS.Fin JS.MAX_VALUE))
                      (JS.nullish (height widget) (JS.Fin 4));
          minW := option_map JS.Fin (minWidth widget);
          maxW := option_map JS.Fin (maxWidth widget);
          minH := option_map JS.Fin (minHeight widget);
          maxH := option_map JS.Fin (maxHeight widget);
          isDraggable := editMode;
          isResizable := editMode |};
     settings := Some [] |}.

Definition handleAdd (rd : Render) (widget : Widget) (hk : Hooks) : Rand Hooks :=
  sfx <- random_suffix ;;
  ret (setAddWidgetDialogOpen false
         (setWidgets (widgets rd ++ [added_widget (widgets rd) (editMode hk) widget sfx])
            hk)).

(** [w.id !== widgetId] *)
Definition id_differs (widgetId : string) (gw : GridWidget) : bool :=
  match id gw with
  | Some k => negb (String.eqb k widgetId)
  | None => true
  end.

(** [widgets.filter(w => w.id !== widgetId)] *)
Definition removed (widgets : list GridWidget) (widgetId : string)
  : list GridWidget :=
  filter (id_differs widgetId) widgets.

Definition handleRemove (rd : Render) (widgetId : string) (hk : Hooks) : Hooks :=
  setWidgets (removed (widgets rd) widgetId) hk.

(** [widgets] after [widgets[idx].settings = widgetSettings] for the
    first [idx] with [widgets[idx].id === widgetId]; [None] when
    [findIndex] returns -1.  The array written to is the one the render
    bound; the next render reads the store again. *)
Fixpoint settings_saved (widgets : list GridWidget) (widgetId : string)
    (widgetSettings : list (string * json)) : option (list GridWidget) :=
  match widgets with
  | [] => None
  | gw :: rest =>
      if id_differs widgetId gw
      then option_map (cons gw) (settings_saved rest widgetId widgetSettings)
      else Some ({| id := id gw; layout := layout gw;
                    settings := Some widgetSettings |} :: rest)
  end.

Definition handleSettingsSave (rd : Render) (widgetId : string)
    (widgetSettings : list (string * json)) (hk : Hooks) : Hooks :=
  match settings_saved (widgets rd) widgetId widgetSettings with
  | Some ws => setWidgets ws hk
  | None => hk
  end.

Definition clearLayout (hk : Hooks) : Hooks :=
  setWidgets [] hk.

(** [{ ...w, layout: { ...w.layout, isDraggable: mode, isResizable: mode } }] *)
Definition with_mode (mode : bool) (gw : GridWidget) : GridWidget :=
  {| id := id gw;
     layout :=
       {| i := i (layout gw);
          x := x (layout gw);
          y := y (layout gw);
          w := w (layout gw);
          h := h (layout gw);
          minW := minW (layout gw);
          maxW := maxW (layout gw);
          minH := minH (layout gw);
          maxH := maxH (layout gw);
          isDraggable := mode;
          isResizable := mode |};
     settings := settings gw |}.

Definition changeEditMode (rd : Render) (mode : bool) (hk : Hooks) : Hooks :=
  setWidgets (map (with_mode mode) (widgets rd)) (setEditMode mode hk).

(** [widgets.find(w => w.id === l.i)] *)
Definition find_by_id (widgets : list GridWidget) (k : string)
  : option GridWidget :=
  find (fun gw => match id gw with
                  | Some k' => String.eqb k' k
                  | None => false
                  end) widgets.

(** [{ ...widget, layout: l }]: spreading [undefined] adds no property *)
Definition merged_widget (widgets : list GridWidget) (l : Layout) : GridWidget :=
  match find_by_id widgets l.(i) with
  | Some widget => {| id := id widget; layout := l; settings := settings widget |}
  | None => {| id := None; layout := l; settings := None |}
  end.

(** [newLayout.map(l => ...)] *)
Definition merged (widgets : list GridWidget) (newLayout : list Layout)
  : list GridWidget :=
  map (merged_widget widgets) newLayout.

Definition handleLayoutChange (rd : Render) (newLayout : list Layout)
    (hk : Hooks) : Hooks :=
  if editMode hk
  then setWidgets (merged (widgets rd) newLayout) hk
  else hk.

Definition handleRestoreDefaultConfig (rd : Render) (hk : Hooks) : Hooks :=
  setWidgets (defaultLayout rd) hk.

(** ** events *)

(** what the buttons, the dialogs and the grid engine call *)
Inductive Event : Type :=
| AddWidget (widget : Widget)
| RemoveWidget (widgetId : string)
| SettingsSave (widgetId : string) (widgetSettings : list (string * json))
| ClearLayout
| ChangeEditMode (mode : bool)
| LayoutChange (newLayout : list Layout)
| RestoreDefault
| OpenAddWidgetDialog (open : bool).

(** one event: the handler of the latest render runs on the hooks *)
Definition dispatch (props : Props) (ev : Event) (hk : Hooks) : Rand Hooks :=
  rd <- render props hk ;;
  match ev with
  | AddWidget widget => handleAdd rd widget hk
  | RemoveWidget widgetId => ret (handleRemove rd widgetId hk)
  | SettingsSave widgetId s => ret (handleSettingsSave rd widgetId s hk)
  | ClearLayout => ret (clearLayout hk)
  | ChangeEditMode mode => ret (changeEditMode rd mode hk)
  | LayoutChange newLayout => ret (handleLayoutChange rd newLayout hk)
  | RestoreDefault => ret (handleRestoreDefaultConfig rd hk)
  | OpenAddWidgetDialog open => ret (setAddWidgetDialogOpen open hk)
  end.

Fixpoint run (props : Props) (evs : list Event) (hk : Hooks) : Rand Hooks :=
  match evs with
  | [] => ret hk
  | ev :: evs' =>
      hk' <- dispatch props ev hk ;;
      run props evs' hk'
  end.

(** the widgets a render shows for the hooks [hk] *)
Definition shown (props : Props) (hk : Hooks) (r : Rng) : list GridWidget :=
  widgets (fst (render props hk r)).

(* ===================================================================== *)
(** * The properties in the words of the specification *)
(* ===================================================================== *)

(** A configuration entry is unresolvable when it has no name to resolve
    ([undefined], or the empty string, which the code takes as no name),
    or a name that no widget of the catalog bears. *)
Definition unresolvable (availableWidgets : list Widget)
    (c : LayoutConfiguration) : bool :=
  match component_name c with
  | None => true
  | Some nm =>
      negb (JS.truthy nm)
      || negb (existsb (fun wd => String.eqb (name wd) nm) availableWidgets)
  end.

(** The entries of a configuration that resolve, each with its index in
    the configuration and the catalog widget it resolves to, in the order
    of the configuration; [n] is the index of the head. *)
Fixpoint resolved_from (availableWidgets : list Widget) (n : nat)
    (config : list LayoutConfiguration)
  : list (nat * LayoutConfiguration * Widget) :=
  match config with
  | [] => []
  | c :: config' =>
      match resolve availableWidgets c with
      | Some widget => (n, c, widget) :: resolved_from availableWidgets (S n) config'
      | None => resolved_from availableWidgets (S n) config'
      end
  end.

Definition resolved (availableWidgets : list Widget)
    (config : list LayoutConfiguration) :=
  resolved_from availableWidgets 0 config.

(** [gw] is the placement built for the resolved entry [e] *)
Definition built_for (gw : GridWidget)
    (e : nat * LayoutConfiguration * Widget) : Prop :=
  let '(idx, c, widget) := e in
  exists sfx, gw = default_widget c idx widget sfx.

(** [ws'] is [ws] without the widgets of id [k], the others kept as
    they are and where they are *)
Inductive Without (k : string) : list GridWidget -> list GridWidget -> Prop :=
| Without_nil : Without k [] []
| Without_drop gw ws ws' :
    id gw = Some k -> Without k ws ws' -> Without k (gw :: ws) ws'
| Without_keep gw ws ws' :
    id gw <> Some k -> Without k ws ws' -> Without k (gw :: ws) (gw :: ws').

(** both flags of [gw] have the value [mode] *)
Definition flags_are (mode : bool) (gw : GridWidget) : Prop :=
  isDraggable (layout gw) = mode /\ isResizable (layout gw) = mode.

(** A widget sequence that the document schema accepts: every widget has
    an id and settings, and every number of its layout is finite. *)
Definition finite_opt (o : option JS.number) : bool :=
  match o with
  | Some n => JS.isFinite n
  | None => true
  end.

Definition layout_valid (l : Layout) : bool :=
  JS.isFinite (x l) && JS.isFinite (y l) && JS.isFinite (w l) && JS.isFinite (h l)
  && finite_opt (minW l) && finite_opt (maxW l)
  && finite_opt (minH l) && finite_opt (maxH l).

Definition widget_valid (gw : GridWidget) : bool :=
  match id gw, settings gw with
  | Some _, Some _ => layout_valid (layout gw)
  | _, _ => false
  end.

Definition widgets_valid (ws : list GridWidget) : bool :=
  forallb widget_valid ws.






(* ===================================================================== *)
(** * Concrete inputs *)
(* ===================================================================== *)

(** a text with its apostrophes turned into double quotes *)
Fixpoint quoted (s : string) : string :=
  match s with
  | EmptyString => ""
  | String c s' =>
      String (if Ascii.eqb c "'" then JSON.dquote else c) (quoted s')
  end.

(** a document that another program wrote: white space, a number with a
    fraction, numbers with an exponent, an escaped character, a property
    that the format does not name *)
Definition foreign_text : string :=
  quoted
    "{ 'version': 1,
       'pages': { 'default': [
         { 'id': 'clock__0k0',
           'layout': { 'i': 'clock__0k0', 'x': 0, 'y': 1e1, 'w': 4, 'h': 2.0,
                       'maxW': 4, 'moved': true,
                       'isDraggable': false, 'isResizable': false },
           'settings': { 'zoom': 1.5, 'ratio': -25e-2, 'label': 'caf\u00e9' } } ] } }".


(** the example of the specification: a catalog with the widget "clock"
    of [maxWidth] 4 and [maxHeight] 2, and a configuration that asks for
    8 by 5 *)
Definition clock : Widget :=
  {| name := "clock"; title := None; description := None;
     component := mkElement (Some "clock");
     width := None; minWidth := None; maxWidth := Some 4%Z;
     height := None; minHeight := None; maxHeight := Some 2%Z |}.

Definition clock_config : list LayoutConfiguration :=
  [ {| conf_component := CName "clock";
       conf_x := 0; conf_y := 0; conf_width := 8; conf_height := 5 |} ].

Definition some_rng : Rng := mkRng (fun n => "k" ++ JS.string_of_nat n) 0.

Definition clock_placement : GridWidget :=
  default_widget
    {| conf_component := CName "clock";
       conf_x := 0; conf_y := 0; conf_width := 8; conf_height := 5 |}
    0 clock "k0".

(** a text that is not JSON, and a JSON text that is not a layout
    document *)
Definition malformed_text : string := "{version:".
Definition invalid_text : string := "{}".


(** the list that [handleAdd] writes when the clock is added to an empty
    list *)
Definition lost_widgets : list GridWidget :=
  [added_widget [] false clock "k0"].

(** a layout item as the grid engine may hand it over: draggable and not
    resizable *)
Definition skewed_layout : Layout :=
  {| i := "clock__0k0"; x := JS.Fin 0; y := JS.Fin 0; w := JS.Fin 4; h := JS.Fin 2;
     minW := None; maxW := None; minH := None; maxH := None;
     isDraggable := true; isResizable := false |}.

(** hooks in the edit mode, over a store that holds the clock placement
    made editable *)
Definition editing_hooks : Hooks :=
  {| homeSnapshot := stored (save [with_mode true clock_placement]);
     editMode := true;
     addWidgetDialogOpen := false |}.

Definition editing_render : Render :=
  {| defaultLayout := [clock_placement];
     widgets := [with_mode true clock_placement] |}.

(** a catalog widget without bounds, and a configuration of three
    entries: the banner, a name that the catalog does not hold, and the
    clock *)
Definition banner : Widget :=
  {| name := "banner"; title := None; description := None;
     component := mkElement (Some "banner");
     width := None; minWidth := None; maxWidth := None;
     height := None; minHeight := None; maxHeight := None |}.

Definition mixed_config : list LayoutConfiguration :=
  [ {| conf_component := CName "banner";
       conf_x := 0; conf_y := 0; conf_width := 10; conf_height := 3 |};
    {| conf_component := CName "weather";
       conf_x := 0; conf_y := 3; conf_width := 2; conf_height := 2 |};
    {| conf_component := CName "clock";
       conf_x := 0; conf_y := 5; conf_width := 8; conf_height := 5 |} ].







(* ===================================================================== *)
(** * Tactics *)
(* ===================================================================== *)

(** decides the comparisons of two known characters in the goal and
    takes the branches they select *)
Ltac compare_chars :=
  repeat match goal with
         | |- context [Ascii.eqb ?a ?b] =>
             let v := eval vm_compute in (Ascii.eqb a b) in
             match v with
             | true => change (Ascii.eqb a b) with true
             | false => change (Ascii.eqb a b) with false
             end
         end;
  cbv iota.

(** a character that is no white space is where [skip_ws] stops *)
Ltac skip_no_ws :=
  repeat match goal with
         | |- context [JSON.skip_ws (String ?c ?s)] =>
             let v := eval vm_compute in (JSON.is_ws c) in
             match v with
             | false => change (JSON.skip_ws (String c s)) with (String c s)
             end
         end;
  cbv iota beta.

(* ===================================================================== *)
(** * What the component draws *)
(* ===================================================================== *)

(** [key.split('__')[0]]: the part of [key] before the first "__", all
    of [key] when there is none *)
Fixpoint getWidgetNameFromKey (key : string) : string :=
  match key with
  | EmptyString => ""
  | String c key' =>
      if Ascii.eqb c "_" then
        match key' with
        | String c' _ =>
            if Ascii.eqb c' "_" then ""
            else String c (getWidgetNameFromKey key')
        | EmptyString => String c ""
        end
      else String c (getWidgetNameFromKey key')
  end.

(** [availableWidgets.find(widget => widget.name === name)] *)
Definition getWidgetByName (availableWidgets : list Widget) (nm : string)
  : option Widget :=
  find (fun widget => String.eqb (name widget) nm) availableWidgets.

(** objects: the properties in the order they are enumerated; of two
    properties with one key the later counts, as in [Schema.get] *)
Definition object : Type := list (string * json).

(** [o[k] = v]: the value of an existing property is replaced where the
    property stands, a new property goes last *)
Definition assign (o : object) (kv : string * json) : object :=
  if existsb (fun p => String.eqb (fst p) (fst kv)) o
  then map (fun p => if String.eqb (fst p) (fst kv) then (fst p, snd kv) else p) o
  else (o ++ [kv])%list.

(** [{ ...a, ...b }] *)
Definition spread (a b : object) : object :=
  fold_left assign b (fold_left assign a []).

(** [w.settings ?? {}] *)
Definition settings_or_empty (s : option object) : object :=
  match s with
  | Some o => o
  | None => []
  end.

(** the overlay drawn over a widget in the edit mode: the props of
    [WidgetSettingsOverlay] that are data *)
Record Overlay : Type := mkOverlay {
  overlay_id : string;
  overlay_widget : Widget;
  overlay_settings : option object
}.

(** one child of the grid: the [div] with its key, whether its class has
    [edit], the catalog widget whose component it draws, the props handed
    to that component, and the overlay *)
Record Child : Type := mkChild {
  child_key : string;
  child_edit : bool;
  child_widget : Widget;
  child_props : object;
  child_overlay : option Overlay
}.

(** what the [return] of the component holds, as far as it is data *)
Record View : Type := mkView {
  buttons_editMode : bool;
  buttons_numWidgets : nat;
  buttons_defaultConfigAvailable : bool;
  dialog_open : bool;
  dialog_widgets : list Widget;
  noWidgetsMessage : bool;
  grid_layouts : list Layout;
  grid_children : list (option Child)
}.

Section Drawing.

(** the props of a React element; the record [ReactElement] does not
    hold them *)
Variable element_props : ReactElement -> object.

(** the callback of [widgets.map] in the grid; [None] is [null].  A
    catalog widget always has its component here, so [!widget.component]
    is false. *)
Definition draw_child (availableWidgets : list Widget) (editMode : bool)
    (gw : GridWidget) : option Child :=
  let l := layout gw in
  let widgetName := getWidgetNameFromKey (i l) in
  match getWidgetByName availableWidgets widgetName with
  | None => None
  | Some widget =>
      let widgetProps :=
        spread (element_props (component widget))
               (settings_or_empty (settings gw)) in
      Some {| child_key := i l;
              child_edit := editMode;
              child_widget := widget;
              child_props := widgetProps;
              child_overlay :=
                if editMode
                then Some {| overlay_id := i l;
                             overlay_widget := widget;
                             overlay_settings := settings gw |}
                else None |}
  end.

Definition draw (props : Props) (rd : Render) (hk : Hooks) : View :=
  {| buttons_editMode := editMode hk;
     buttons_numWidgets := List.length (widgets rd);
     buttons_defaultConfigAvailable :=
       match config props with Some _ => true | None => false end;
     dialog_open := addWidgetDialogOpen hk;
     dialog_widgets := availableWidgets props;
     noWidgetsMessage :=
       negb (editMode hk) && Nat.eqb (List.length (widgets rd)) 0;
     grid_layouts := map layout (widgets rd);
     grid_children :=
       map (draw_child (availableWidgets props) (editMode hk)) (widgets rd) |}.

End Drawing.

(* ===================================================================== *)
(** * The catalog: [availableWidgetsFilter] *)
(* ===================================================================== *)

(** [CardConfig] of [@backstage/plugin-home-react], the part the filter
    reads: [layout.width] and [layout.height], each with a default, a
    minimum and a maximum.  [settings.schema] goes into [settingsSchema],
    which the record [Widget] does not hold. *)
Record CardLayoutSize : Type := mkCardLayoutSize {
  size_default : option Z;
  size_min : option Z;
  size_max : option Z
}.

Record CardLayout : Type := mkCardLayout {
  layout_width : option CardLayoutSize;
  layout_height : option CardLayoutSize
}.

Record CardConfig : Type := mkCardConfig {
  card_layout : option CardLayout
}.

(** an element of the collection with the component data the filter
    reads: ['core.extensionName'] is in the element, the others are
    ['title'], ['description'] and ['home.widget.config'] *)
Record Element : Type := mkElementData {
  element : ReactElement;
  data_title : option string;
  data_description : option string;
  data_config : option CardConfig
}.

(** [config?.layout?.width] and [config?.layout?.height] *)
Definition config_width (c : option CardConfig) : option CardLayoutSize :=
  match c with
  | Some c' =>
      match card_layout c' with
      | Some l => layout_width l
      | None => None
      end
  | None => None
  end.

Definition config_height (c : option CardConfig) : option CardLayoutSize :=
  match c with
  | Some c' =>
      match card_layout c' with
      | Some l => layout_height l
      | None => None
      end
  | None => None
  end.

(** [s?.f] *)
Definition size_field (f : CardLayoutSize -> option Z)
    (s : option CardLayoutSize) : option Z :=
  match s with
  | Some s' => f s'
  | None => None
  end.

(** the object literal handed to [WidgetSchema.parse] for an element
    whose extension name is [nm] *)
Definition widget_record (elem : Element) (nm : string) : Widget :=
  let config := data_config elem in
  {| name := nm;
     title := data_title elem;
     description := data_description elem;
     component := element elem;
     width := size_field size_default (config_width config);
     minWidth := size_field size_min (config_width config);
     maxWidth := size_field size_max (config_width config);
     height := size_field size_default (config_height config);
     minHeight := size_field size_min (config_height config);
     maxHeight := size_field size_max (config_height config) |}.

(** [selectByComponentData({ key: 'core.extensionName' })]: the elements
    that carry the data, each with it *)
Fixpoint selectByExtensionName (elements : list Element)
  : list (Element * string) :=
  match elements with
  | [] => []
  | elem :: rest =>
      match extensionName (element elem) with
      | Some nm => (elem, nm) :: selectByExtensionName rest
      | None => selectByExtensionName rest
      end
  end.

Section Catalog.

(** [WidgetSchema.parse] of [./types], which is not among the sources:
    whatever it accepts and returns; [None] is the error it throws *)
Variable WidgetSchema_parse : Widget -> option Widget.

(** [elems.flatMap(elem => [WidgetSchema.parse({ ... })])]: an error
    thrown for one element leaves the whole [flatMap] *)
Fixpoint parse_selected (selected : list (Element * string))
  : option (list Widget) :=
  match selected with
  | [] => Some []
  | (elem, nm) :: rest =>
      match WidgetSchema_parse (widget_record elem nm) with
      | None => None
      | Some widget =>
          match parse_selected rest with
          | Some widgets => Some (widget :: widgets)
          | None => None
          end
      end
  end.

Definition availableWidgetsFilter (elements : list Element)
  : option (list Widget) :=
  parse_selected (selectByExtensionName elements).

End Catalog.

(* ===================================================================== *)
(** * Notions of the further properties *)
(* ===================================================================== *)

(** [s] holds "__" somewhere *)
Fixpoint has_separator (s : string) : bool :=
  match s with
  | EmptyString => false
  | String c s' =>
      match s' with
      | String c' _ =>
          (Ascii.eqb c "_" && Ascii.eqb c' "_") || has_separator s'
      | EmptyString => false
      end
  end.

(** a name from which the ids made of it lead back to it: it holds no
    "__" and does not end in "_" *)
Definition well_named (nm : string) : bool :=
  negb (has_separator (nm ++ "_")).

(** the store holds a document written by [setWidgets] for a list that
    the schema accepts *)
Definition store_valid (hk : Hooks) : Prop :=
  exists ws, homeSnapshot hk = stored (save ws) /\ widgets_valid ws = true.

(** every number of the layout items is finite and every item names a
    widget of [ws] *)
Definition layouts_match (ws : list GridWidget) (newLayout : list Layout) : bool :=
  forallb (fun l => layout_valid l
                    && match find_by_id ws (i l) with
                       | Some gw => match settings gw with Some _ => true | None => false end
                       | None => false
                       end) newLayout.

(** an event after which the store still holds a valid list, when [ws]
    is the list shown and [editing] the edit mode: not an [add] to an
    empty list, and no layout change that is applied with items that
    match no widget or are not finite *)
Definition keeps_valid (editing : bool) (ws : list GridWidget) (ev : Event)
  : bool :=
  match ev with
  | AddWidget _ =>
      match ws with [] => false | _ :: _ => true end
  | LayoutChange newLayout => negb editing || layouts_match ws newLayout
  | _ => true
  end.

(** the widgets of [ws] with the layouts [ls], pair by pair *)
Fixpoint relaid (ws : list GridWidget) (ls : list Layout) : list GridWidget :=
  match ws, ls with
  | gw :: ws', l :: ls' =>
      {| id := id gw; layout := l; settings := settings gw |} :: relaid ws' ls'
  | _, _ => []
  end.

(** a positive size where there is one: what section 3 of the
    specification asks of the bounds of a catalog widget *)
Definition positive_opt (o : option Z) : bool :=
  match o with
  | Some z => Z.ltb 0 z
  | None => true
  end.

Definition positive_bounds (wd : Widget) : option Widget :=
  if positive_opt (width wd) && positive_opt (minWidth wd)
     && positive_opt (maxWidth wd) && positive_opt (height wd)
     && positive_opt (minHeight wd) && positive_opt (maxHeight wd)
  then Some wd else None.

(** every event of the run [evs] from [hk] meets [keeps_valid] in the
    state it arrives in *)
Fixpoint run_keeps_valid (props : Props) (evs : list Event) (hk : Hooks)
    (r : Rng) : Prop :=
  match evs with
  | [] => True
  | ev :: evs' =>
      keeps_valid (editMode hk) (shown props hk r) ev = true
      /\ run_keeps_valid props evs'
           (fst (dispatch props ev hk r)) (snd (dispatch props ev hk r))
  end.

(** the list has no widget *)
Definition no_widgets (ws : list GridWidget) : bool :=
  match ws with
  | [] => true
  | _ :: _ => false
  end.

(* ===================================================================== *)
(** * Further concrete inputs *)
(* ===================================================================== *)

Definition clock_props : Props :=
  {| config := Some clock_config; availableWidgets := [clock] |}.

(** elements without props *)
Definition no_props (e : ReactElement) : object := [].

(** a widget whose name ends in "_", and a placement made of it *)
Definition clock_underscore : Widget :=
  {| name := "clock_"; title := None; description := None;
     component := mkElement (Some "clock_");
     width := None; minWidth := None; maxWidth := None;
     height := None; minHeight := None; maxHeight := None |}.

Definition underscore_placement : GridWidget :=
  default_widget
    {| conf_component := CName "clock_";
       conf_x := 0; conf_y := 0; conf_width := 2; conf_height := 2 |}
    0 clock_underscore "k0".

(** a placement with a saved setting *)
Definition tuned_placement : GridWidget :=
  {| id := id clock_placement;
     layout := layout clock_placement;
     settings := Some [("zone", JStr "UTC")] |}.

(** an element that declares a widget of width 0, and one without an
    extension name *)
Definition zero_width_element : Element :=
  {| element := mkElement (Some "clock");
     data_title := None; data_description := None;
     data_config :=
       Some {| card_layout :=
                 Some {| layout_width :=
                           Some {| size_default := Some 0%Z;
                                   size_min := None; size_max := None |};
                         layout_height := None |} |} |}.

Definition anonymous_element : Element :=
  {| element := mkElement None;
     data_title := None; data_description := None; data_config := None |}.
(* ===================================================================== *)
(** * Proofs *)
(* ===================================================================== *)

(** ** The text of a JSON value is read back *)

Lemma string_app_assoc (a b c : string) : (a ++ b) ++ c = a ++ (b ++ c).
Proof. induction a as [|ch a IH]; simpl; [reflexivity | rewrite IH; reflexivity]. Qed.

Lemma string_app_length (a b : string) :
  String.length (a ++ b) = (String.length a + String.length b)%nat.
Proof. induction a as [|ch a IH]; simpl; [reflexivity | rewrite IH; reflexivity]. Qed.

Lemma string_app_nil (s : string) : s ++ "" = s.
Proof. induction s as [|c s IH]; simpl; [reflexivity | rewrite IH; reflexivity]. Qed.

(** an induction principle that reaches the items of an array and the
    values of an object *)
Lemma json_induction (P : json -> Prop) :
  P JNull ->
  (forall b, P (JBool b)) ->
  (forall z, P (JNum z)) ->
  (forall neg whole frac last, P (JDec neg whole frac last)) ->
  (forall s, P (JStr s)) ->
  (forall items, Forall P items -> P (JArr items)) ->
  (forall props, Forall (fun kv => P (snd kv)) props -> P (JObj props)) ->
  forall j, P j.
Proof.
  intros Hnull Hbool Hnum Hdec Hstr Harr Hobj.
  fix IH 1. intros [ | b | z | neg whole frac last | s | items | props].
  - exact Hnull.
  - apply Hbool.
  - apply Hnum.
  - apply Hdec.
  - apply Hstr.
  - apply Harr. induction items as [|v items IHi]; constructor; [apply IH | exact IHi].
  - apply Hobj. induction props as [|[k v] props IHp]; constructor; [apply IH | exact IHp].
Qed.

Module JSONFacts.
Import JSON.

Lemma read_escape_char (c : ascii) (tl t r : string) :
  read_string tl = Some (t, r) ->
  read_string (escape_char c ++ tl) = Some (String c t, r).
Proof.
  intros H.
  destruct c as [[] [] [] [] [] [] [] []]; simpl; rewrite H; reflexivity.
Qed.

Lemma read_escape (s rest : string) :
  read_string (escape s ++ String dquote rest) = Some (s, rest).
Proof.
  induction s as [|c s IH]; simpl.
  - reflexivity.
  - rewrite string_app_assoc. apply read_escape_char. exact IH.
Qed.


Lemma text_array (items : list json) : text (JArr items) = "[" ++ elements_text items.
Proof. reflexivity. Qed.

Lemma text_object (props : list (string * json)) :
  text (JObj props) = "{" ++ members_text props.
Proof. reflexivity. Qed.

Lemma size_array (items : list json) : size (JArr items) = S (elements_size items).
Proof. reflexivity. Qed.

Lemma size_object (props : list (string * json)) :
  size (JObj props) = S (members_size props).
Proof. reflexivity. Qed.

(** *** numbers *)

Lemma uint_digit_chars (d : uint) :
  digit_chars (NilEmpty.string_of_uint d) = true.
Proof. induction d; simpl; auto. Qed.

Lemma digit_number_char (c : ascii) : is_digit c = true -> is_number_char c = true.
Proof. intros H. unfold is_number_char. rewrite H. destruct (Ascii.eqb c "-"); reflexivity. Qed.

Lemma digit_number_chars (s : string) :
  digit_chars s = true -> number_chars s = true.
Proof.
  induction s as [|c s IH]; simpl; [reflexivity|].
  intros H. apply andb_true_iff in H. destruct H as [Hc Hs].
  rewrite (digit_number_char _ Hc), (IH Hs). reflexivity.
Qed.

Lemma number_chars_app (a b : string) :
  number_chars (a ++ b) = number_chars a && number_chars b.
Proof.
  induction a as [|c a IH]; simpl; [reflexivity|].
  rewrite IH, andb_assoc. reflexivity.
Qed.

Lemma digit_chars_app (a b : string) :
  digit_chars (a ++ b) = digit_chars a && digit_chars b.
Proof.
  induction a as [|c a IH]; simpl; [reflexivity|].
  rewrite IH, andb_assoc. reflexivity.
Qed.

Lemma span_digits_chars (ds rest : string) :
  digit_chars ds = true -> no_digit rest ->
  span_digits (ds ++ rest) = (ds, rest).
Proof.
  intros Hds Hrest. induction ds as [|c ds IH]; simpl in *.
  - destruct rest as [|c rest]; simpl in *; [reflexivity|].
    rewrite Hrest. reflexivity.
  - apply andb_true_iff in Hds. destruct Hds as [Hc Hds].
    rewrite Hc, (IH Hds). reflexivity.
Qed.

Lemma to_uint_nonnil (n : N) : N.to_uint n <> Nil.
Proof.
  destruct n as [|p]; simpl; [discriminate|].
  apply Unsigned.to_uint_nonnil.
Qed.

Lemma text_of_whole_nilempty (n : N) :
  text_of_whole n = NilEmpty.string_of_uint (N.to_uint n).
Proof.
  unfold text_of_whole, NilZero.string_of_uint.
  pose proof (to_uint_nonnil n) as H.
  destruct (N.to_uint n); [congruence | reflexivity ..].
Qed.

Lemma text_of_whole_digits (n : N) : digit_chars (text_of_whole n) = true.
Proof. rewrite text_of_whole_nilempty. apply uint_digit_chars. Qed.

Lemma text_of_whole_head (n : N) :
  exists c t, text_of_whole n = String c t /\ is_digit c = true.
Proof.
  pose proof (text_of_whole_digits n) as H.
  rewrite text_of_whole_nilempty in *.
  pose proof (to_uint_nonnil n) as Hn.
  destruct (N.to_uint n); try congruence; simpl in *; eauto.
Qed.

Lemma whole_of_text (n : N) : whole_of (text_of_whole n) = Some n.
Proof.
  unfold whole_of.
  rewrite text_of_whole_nilempty at 1. rewrite NilEmpty.usu.
  rewrite DecimalN.Unsigned.of_to, String.eqb_refl. reflexivity.
Qed.

Lemma uint_of_text_of_whole (n : N) :
  NilEmpty.uint_of_string (text_of_whole n) = Some (N.to_uint n).
Proof. rewrite text_of_whole_nilempty. apply NilEmpty.usu. Qed.

Lemma strip_zeros_last (a : string) (c : ascii) :
  Ascii.eqb c "0" = false ->
  strip_zeros (a ++ String c "") = a ++ String c "".
Proof.
  intros Hc. induction a as [|b a IH]; simpl.
  - rewrite Hc. reflexivity.
  - rewrite IH. destruct a; reflexivity.
Qed.

Lemma split_last_app (a : string) (c : ascii) :
  split_last (a ++ String c "") = Some (a, c).
Proof.
  induction a as [|b a IH]; simpl; [reflexivity|].
  rewrite IH. reflexivity.
Qed.

Lemma nzdigit_char (l : nzdigit) :
  nzdigit_of_char (char_of_nzdigit l) = Some l
  /\ is_digit (char_of_nzdigit l) = true
  /\ Ascii.eqb (char_of_nzdigit l) "0" = false.
Proof. destruct l; repeat split; reflexivity. Qed.

Lemma decimal_text (neg : bool) (n : N) (f : uint) (l : nzdigit) :
  decimal neg (text_of_whole n)
    (NilEmpty.string_of_uint f ++ String (char_of_nzdigit l) "")
  = Some (JDec neg n f l).
Proof.
  unfold decimal.
  destruct (nzdigit_char l) as (Hl & _ & Hz).
  rewrite uint_of_text_of_whole, (strip_zeros_last _ _ Hz), split_last_app.
  rewrite NilEmpty.usu, Hl, DecimalN.Unsigned.of_to. reflexivity.
Qed.

(** the sign of a token *)
Lemma number_of_sign (neg : bool) (c : ascii) (t : string) :
  is_digit c = true ->
  number_of (text_of_sign neg ++ String c t) =
  let (ds, s1) := span_digits (String c t) in
  match whole_of ds with
  | None => None
  | Some n =>
      match s1 with
      | EmptyString => Some (JNum (signed neg n))
      | String c s2 =>
          if Ascii.eqb c "." then
            let (fs, s3) := span_digits s2 in
            match fs with
            | EmptyString => None
            | String _ _ =>
                match s3 with
                | EmptyString => decimal neg ds fs
                | String c' s4 =>
                    if is_exponent_mark c' then scaled neg ds fs s4 else None
                end
            end
          else if is_exponent_mark c then scaled neg ds "" s2
          else None
      end
  end.
Proof.
  intros Hc. destruct neg.
  - reflexivity.
  - unfold number_of. simpl text_of_sign. simpl append.
    assert (Hm : Ascii.eqb c "-" = false).
    { destruct c as [[] [] [] [] [] [] [] []]; try reflexivity; discriminate Hc. }
    cbv iota. rewrite Hm. reflexivity.
Qed.

Lemma number_of_whole (neg : bool) (n : N) :
  number_of (text_of_sign neg ++ text_of_whole n) = Some (JNum (signed neg n)).
Proof.
  destruct (text_of_whole_head n) as (c & t & Ht & Hc).
  rewrite Ht, (@number_of_sign neg c t Hc), <- Ht.
  pose proof (@span_digits_chars _ "" (text_of_whole_digits n) I) as Hs.
  rewrite string_app_nil in Hs. rewrite Hs.
  rewrite whole_of_text. reflexivity.
Qed.

Lemma number_of_decimal (neg : bool) (n : N) (f : uint) (l : nzdigit) :
  number_of (text_of_decimal neg n f l) = Some (JDec neg n f l).
Proof.
  unfold text_of_decimal.
  destruct (text_of_whole_head n) as (c & t & Ht & Hc).
  rewrite Ht. change ((String c t) ++ ?x) with (String c (t ++ x)).
  simpl append at 2.
  rewrite (@number_of_sign neg c _ Hc).
  change (String c (t ++ ?x)) with ((String c t) ++ x). rewrite <- Ht.
  rewrite (@span_digits_chars _ _ (text_of_whole_digits n)) by reflexivity.
  rewrite whole_of_text.
  change ("." ++ ?x) with (String "." x). cbv iota.
  change (Ascii.eqb "." ".") with true. cbv iota.
  destruct (nzdigit_char l) as (_ & Hd & _).
  assert (Hf : digit_chars (NilEmpty.string_of_uint f ++ String (char_of_nzdigit l) "")
               = true).
  { rewrite digit_chars_app, uint_digit_chars. simpl. rewrite Hd. reflexivity. }
  pose proof (@span_digits_chars _ "" Hf I) as Hs.
  rewrite string_app_nil in Hs. rewrite Hs.
  destruct (NilEmpty.string_of_uint f ++ String (char_of_nzdigit l) "") eqn:E.
  - destruct (NilEmpty.string_of_uint f); discriminate E.
  - rewrite <- E. apply decimal_text.
Qed.

Lemma text_of_number_signed (z : Z) :
  exists neg n, text_of_number z = text_of_sign neg ++ text_of_whole n
                /\ signed neg n = z.
Proof.
  destruct z as [|p|p].
  - exists false, 0%N. split; reflexivity.
  - exists false, (Npos p). split; reflexivity.
  - exists true, (Npos p). split; reflexivity.
Qed.

Lemma text_of_sign_chars (neg : bool) : number_chars (text_of_sign neg) = true.
Proof. destruct neg; reflexivity. Qed.

Lemma text_of_number_chars (z : Z) : number_chars (text_of_number z) = true.
Proof.
  destruct (text_of_number_signed z) as (neg & n & Ht & _). rewrite Ht.
  rewrite number_chars_app, text_of_sign_chars.
  apply digit_number_chars, text_of_whole_digits.
Qed.

Lemma text_of_decimal_chars (neg : bool) (n : N) (f : uint) (l : nzdigit) :
  number_chars (text_of_decimal neg n f l) = true.
Proof.
  unfold text_of_decimal.
  destruct (nzdigit_char l) as (_ & Hd & _).
  rewrite !number_chars_app, text_of_sign_chars.
  rewrite (digit_number_chars _ (text_of_whole_digits n)).
  rewrite (digit_number_chars _ (uint_digit_chars f)).
  simpl. rewrite (digit_number_char _ Hd). reflexivity.
Qed.

Lemma text_of_sign_head (neg : bool) (c : ascii) (t : string) :
  is_digit c = true ->
  exists c' t', text_of_sign neg ++ String c t = String c' t'
                /\ is_number_char c' = true.
Proof.
  intros Hc. destruct neg; simpl.
  - eauto.
  - exists c, t. split; [reflexivity | apply digit_number_char; exact Hc].
Qed.

Lemma text_of_number_head (z : Z) :
  exists c t, text_of_number z = String c t /\ is_number_char c = true.
Proof.
  destruct (text_of_number_signed z) as (neg & n & Ht & _). rewrite Ht.
  destruct (text_of_whole_head n) as (c & t & Hw & Hc). rewrite Hw.
  apply text_of_sign_head. exact Hc.
Qed.

Lemma text_of_decimal_head (neg : bool) (n : N) (f : uint) (l : nzdigit) :
  exists c t, text_of_decimal neg n f l = String c t /\ is_number_char c = true.
Proof.
  unfold text_of_decimal.
  destruct (text_of_whole_head n) as (c & t & Hw & Hc). rewrite Hw.
  change ((String c t) ++ ?x) with (String c (t ++ x)).
  apply text_of_sign_head. exact Hc.
Qed.

Lemma span_number_chars (tok rest : string) :
  number_chars tok = true -> stops rest ->
  span_number (tok ++ rest) = (tok, rest).
Proof.
  intros Htok Hrest. induction tok as [|c tok IH]; simpl in *.
  - destruct rest as [|c rest]; simpl in *; [reflexivity|].
    rewrite Hrest. reflexivity.
  - apply andb_true_iff in Htok. destruct Htok as [Hc Htok].
    rewrite Hc, (IH Htok). reflexivity.
Qed.

Lemma read_text_of_number (z : Z) (rest : string) :
  stops rest ->
  read_number (text_of_number z ++ rest) = Some (JNum z, rest).
Proof.
  intros Hrest. unfold read_number.
  rewrite (@span_number_chars _ _ (text_of_number_chars z) Hrest).
  destruct (text_of_number_signed z) as (neg & n & Ht & Hz).
  rewrite Ht, number_of_whole, Hz. reflexivity.
Qed.

Lemma read_text_of_decimal (neg : bool) (n : N) (f : uint) (l : nzdigit)
    (rest : string) :
  stops rest ->
  read_number (text_of_decimal neg n f l ++ rest) = Some (JDec neg n f l, rest).
Proof.
  intros Hrest. unfold read_number.
  rewrite (@span_number_chars _ _ (text_of_decimal_chars neg n f l) Hrest).
  rewrite number_of_decimal. reflexivity.
Qed.

Lemma number_char_dispatch (c : ascii) :
  is_number_char c = true ->
  is_ws c = false
  /\ Ascii.eqb c "n" = false /\ Ascii.eqb c "t" = false
  /\ Ascii.eqb c "f" = false /\ Ascii.eqb c dquote = false
  /\ Ascii.eqb c "[" = false /\ Ascii.eqb c "{" = false
  /\ Ascii.eqb c "]" = false /\ Ascii.eqb c "}" = false.
Proof.
  destruct c as [[] [] [] [] [] [] [] []]; simpl; intros H;
    try discriminate H; repeat split; reflexivity.
Qed.


(** *** values *)

Lemma text_head (j : json) :
  exists c t, text j = String c t
              /\ is_ws c = false
              /\ Ascii.eqb c "]" = false /\ Ascii.eqb c "}" = false.
Proof.
  destruct j as [ | [|] | z | neg whole frac last | s | items | props].
  - exists "n"%char, "ull". repeat split.
  - exists "t"%char, "rue". repeat split.
  - exists "f"%char, "alse". repeat split.
  - destruct (text_of_number_head z) as (c & t & Ht & Hc).
    exists c, t. apply number_char_dispatch in Hc. simpl. tauto.
  - destruct (text_of_decimal_head neg whole frac last) as (c & t & Ht & Hc).
    exists c, t. apply number_char_dispatch in Hc. simpl. tauto.
  - exists dquote, (escape s ++ String dquote ""). repeat split.
  - exists "["%char, (elements_text items). rewrite text_array. repeat split.
  - exists "{"%char, (members_text props). rewrite text_object. repeat split.
Qed.

Lemma elements_text_head (v : json) (items : list json) :
  exists c t, (forall rest, elements_text (v :: items) ++ rest = String c (t ++ rest))
              /\ is_ws c = false /\ Ascii.eqb c "]" = false.
Proof.
  destruct (text_head v) as (c & t & Ht & Hws & Hb & _).
  destruct items as [|v2 items].
  - exists c, (t ++ "]"). split; [|tauto].
    intros rest. simpl. rewrite Ht. reflexivity.
  - exists c, (t ++ "," ++ elements_text (v2 :: items)). split; [|tauto].
    intros rest. simpl elements_text. rewrite Ht. reflexivity.
Qed.

Lemma parse_elements_S (fuel : nat) (s : string) :
  parse_elements (S fuel) s =
  match parse_value fuel s with
  | None => None
  | Some (v, rest) =>
      match skip_ws rest with
      | EmptyString => None
      | String c rest' =>
          if Ascii.eqb c "," then
            match parse_elements fuel rest' with
            | Some (vs, r) => Some (v :: vs, r)
            | None => None
            end
          else if Ascii.eqb c "]" then Some ([v], rest')
          else None
      end
  end.
Proof. reflexivity. Qed.

Lemma parse_elements_text (items : list json) :
  Forall reads_back items ->
  forall v0 fuel rest,
    reads_back v0 ->
    (elements_size (v0 :: items) <= fuel)%nat ->
    parse_elements fuel (elements_text (v0 :: items) ++ rest)
    = Some (v0 :: items, rest).
Proof.
  induction 1 as [|v items Hv HF IH]; intros v0 fuel rest Hv0 Hfuel;
    (destruct fuel as [|fuel]; [simpl in Hfuel; lia|]).
  - change (elements_text [v0]) with (text v0 ++ "]").
    rewrite string_app_assoc, parse_elements_S.
    rewrite (Hv0 fuel ("]" ++ rest)); [|simpl in Hfuel; lia|reflexivity].
    reflexivity.
  - change (elements_text (v0 :: v :: items))
      with (text v0 ++ "," ++ elements_text (v :: items)).
    rewrite string_app_assoc, parse_elements_S.
    rewrite (Hv0 fuel (("," ++ elements_text (v :: items)) ++ rest));
      [|simpl in Hfuel; lia|reflexivity].
    change (("," ++ elements_text (v :: items)) ++ rest)
      with (String "," (elements_text (v :: items) ++ rest)).
    skip_no_ws. compare_chars.
    rewrite (IH v fuel rest Hv); [reflexivity|].
    simpl in Hfuel. simpl. lia.
Qed.

Lemma parse_members_S (fuel : nat) (s : string) :
  parse_members (S fuel) s =
  match skip_ws s with
  | EmptyString => None
  | String c s' =>
      if Ascii.eqb c dquote then
        match read_string s' with
        | None => None
        | Some (k, rest) =>
            match skip_ws rest with
            | EmptyString => None
            | String c' rest' =>
                if Ascii.eqb c' ":" then
                  match parse_value fuel rest' with
                  | None => None
                  | Some (v, rest'') =>
                      match skip_ws rest'' with
                      | EmptyString => None
                      | String c'' r =>
                          if Ascii.eqb c'' "," then
                            match parse_members fuel r with
                            | Some (ms, r') => Some ((k, v) :: ms, r')
                            | None => None
                            end
                          else if Ascii.eqb c'' "}" then Some ([(k, v)], r)
                          else None
                      end
                  end
                else None
            end
        end
      else None
  end.
Proof. reflexivity. Qed.

Lemma member_text (k : string) (tl : string) :
  text_of_string k ++ tl = String dquote (escape k ++ String dquote tl).
Proof.
  unfold text_of_string. simpl. rewrite string_app_assoc. reflexivity.
Qed.

Lemma parse_members_text (props : list (string * json)) :
  Forall (fun kv => reads_back (snd kv)) props ->
  forall k0 v0 fuel rest,
    reads_back v0 ->
    (members_size ((k0, v0) :: props) <= fuel)%nat ->
    parse_members fuel (members_text ((k0, v0) :: props) ++ rest)
    = Some ((k0, v0) :: props, rest).
Proof.
  induction 1 as [|[k v] props Hv HF IH]; intros k0 v0 fuel rest Hv0 Hfuel;
    (destruct fuel as [|fuel]; [simpl in Hfuel; lia|]).
  - change (members_text [(k0, v0)])
      with (text_of_string k0 ++ ":" ++ text v0 ++ "}").
    rewrite string_app_assoc, member_text, parse_members_S.
    skip_no_ws. compare_chars. rewrite read_escape.
    change ((":" ++ text v0 ++ "}") ++ rest)
      with (String ":" ((text v0 ++ "}") ++ rest)).
    skip_no_ws. compare_chars. rewrite string_app_assoc.
    rewrite (Hv0 fuel ("}" ++ rest)); [|simpl in Hfuel; lia|reflexivity].
    reflexivity.
  - change (members_text ((k0, v0) :: (k, v) :: props))
      with (text_of_string k0 ++ ":" ++ text v0 ++ ","
            ++ members_text ((k, v) :: props)).
    rewrite string_app_assoc, member_text, parse_members_S.
    skip_no_ws. compare_chars. rewrite read_escape.
    change ((":" ++ text v0 ++ "," ++ members_text ((k, v) :: props)) ++ rest)
      with (String ":" ((text v0 ++ "," ++ members_text ((k, v) :: props)) ++ rest)).
    skip_no_ws. compare_chars. rewrite string_app_assoc.
    rewrite (Hv0 fuel (("," ++ members_text ((k, v) :: props)) ++ rest));
      [|simpl in Hfuel; lia|reflexivity].
    change (("," ++ members_text ((k, v) :: props)) ++ rest)
      with (String "," (members_text ((k, v) :: props) ++ rest)).
    skip_no_ws. compare_chars.
    rewrite (IH k v fuel rest Hv); [reflexivity|].
    simpl in Hfuel. simpl. lia.
Qed.

Lemma parse_value_S (fuel : nat) (c : ascii) (s' : string) :
  is_ws c = false ->
  parse_value (S fuel) (String c s') =
  if Ascii.eqb c "n" then expect "null" JNull (String c s')
  else if Ascii.eqb c "t" then expect "true" (JBool true) (String c s')
  else if Ascii.eqb c "f" then expect "false" (JBool false) (String c s')
  else if Ascii.eqb c dquote then
    match read_string s' with
    | Some (t, rest) => Some (JStr t, rest)
    | None => None
    end
  else if Ascii.eqb c "[" then
    match skip_ws s' with
    | EmptyString => None
    | String c' rest =>
        if Ascii.eqb c' "]" then Some (JArr [], rest)
        else
          match parse_elements fuel s' with
          | Some (items, rest') => Some (JArr items, rest')
          | None => None
          end
    end
  else if Ascii.eqb c "{" then
    match skip_ws s' with
    | EmptyString => None
    | String c' rest =>
        if Ascii.eqb c' "}" then Some (JObj [], rest)
        else
          match parse_members fuel s' with
          | Some (props, rest') => Some (JObj props, rest')
          | None => None
          end
    end
  else read_number (String c s').
Proof.
  intros Hws.
  change (parse_value (S fuel) (String c s')) with
    (match skip_ws (String c s') with
     | EmptyString => None
     | String c0 s0 =>
         if Ascii.eqb c0 "n" then expect "null" JNull (String c0 s0)
         else if Ascii.eqb c0 "t" then expect "true" (JBool true) (String c0 s0)
         else if Ascii.eqb c0 "f" then expect "false" (JBool false) (String c0 s0)
         else if Ascii.eqb c0 dquote then
           match read_string s0 with
           | Some (t, rest) => Some (JStr t, rest)
           | None => None
           end
         else if Ascii.eqb c0 "[" then
           match skip_ws s0 with
           | EmptyString => None
           | String c' rest =>
               if Ascii.eqb c' "]" then Some (JArr [], rest)
               else
                 match parse_elements fuel s0 with
                 | Some (items, rest') => Some (JArr items, rest')
                 | None => None
                 end
           end
         else if Ascii.eqb c0 "{" then
           match skip_ws s0 with
           | EmptyString => None
           | String c' rest =>
               if Ascii.eqb c' "}" then Some (JObj [], rest)
               else
                 match parse_members fuel s0 with
                 | Some (props, rest') => Some (JObj props, rest')
                 | None => None
                 end
           end
         else read_number (String c0 s0)
     end).
  simpl skip_ws. rewrite Hws. reflexivity.
Qed.

(** every value is read back from its text *)
Theorem parse_value_text (j : json) : reads_back j.
Proof.
  induction j as [ | b | z | neg whole frac last | s | items HF | props HF]
    using json_induction;
    intros fuel rest Hfuel Hrest;
    (destruct fuel as [|fuel]; [simpl in Hfuel; lia|]).
  - reflexivity.
  - destruct b; reflexivity.
  - destruct (text_of_number_head z) as (c & t & Ht & Hc).
    change (text (JNum z)) with (text_of_number z).
    pose proof (read_text_of_number z rest Hrest) as Hread.
    rewrite Ht in *. simpl append in *.
    apply number_char_dispatch in Hc.
    destruct Hc as (Hws & Hn & Ht' & Hf & Hq & Ha & Ho & _).
    rewrite parse_value_S by exact Hws.
    rewrite Hn, Ht', Hf, Hq, Ha, Ho. exact Hread.
  - destruct (text_of_decimal_head neg whole frac last) as (c & t & Ht & Hc).
    change (text (JDec neg whole frac last))
      with (text_of_decimal neg whole frac last).
    pose proof (read_text_of_decimal neg whole frac last rest Hrest) as Hread.
    rewrite Ht in *. simpl append in *.
    apply number_char_dispatch in Hc.
    destruct Hc as (Hws & Hn & Ht' & Hf & Hq & Ha & Ho & _).
    rewrite parse_value_S by exact Hws.
    rewrite Hn, Ht', Hf, Hq, Ha, Ho. exact Hread.
  - change (text (JStr s) ++ rest) with (text_of_string s ++ rest).
    rewrite member_text, parse_value_S by reflexivity.
    compare_chars. rewrite read_escape. reflexivity.
  - rewrite text_array.
    change (("[" ++ elements_text items) ++ rest)
      with (String "[" (elements_text items ++ rest)).
    rewrite parse_value_S by reflexivity. compare_chars.
    destruct items as [|v items]; [reflexivity|].
    destruct (elements_text_head v items) as (c & t & Ht & Hws & Hb).
    inversion HF as [|v' items' Hv HF']; subst.
    pose proof (@parse_elements_text items HF' v fuel rest Hv) as He.
    rewrite size_array in Hfuel. specialize (He ltac:(lia)).
    rewrite He, Ht. simpl skip_ws. rewrite Hws, Hb. reflexivity.
  - rewrite text_object.
    change (("{" ++ members_text props) ++ rest)
      with (String "{" (members_text props ++ rest)).
    rewrite parse_value_S by reflexivity. compare_chars.
    destruct props as [|[k v] props]; [reflexivity|].
    inversion HF as [|kv props' Hv HF']; subst. simpl in Hv.
    pose proof (@parse_members_text props HF' k v fuel rest Hv) as Hm.
    rewrite size_object in Hfuel. specialize (Hm ltac:(lia)).
    rewrite Hm.
    destruct props as [|kv2 props].
    + change (members_text [(k, v)] ++ rest)
        with ((text_of_string k ++ ":" ++ text v ++ "}") ++ rest).
      rewrite string_app_assoc, member_text. reflexivity.
    + change (members_text ((k, v) :: kv2 :: props) ++ rest)
        with ((text_of_string k ++ ":" ++ text v ++ ","
               ++ members_text (kv2 :: props)) ++ rest).
      rewrite string_app_assoc, member_text. reflexivity.
Qed.

(** *** fuel *)

Lemma text_length_pos (j : json) : (1 <= String.length (text j))%nat.
Proof.
  destruct (text_head j) as (c & t & Ht & _). rewrite Ht. simpl. lia.
Qed.

Lemma elements_size_le (items : list json) :
  Forall (fun j => (size j <= 2 * String.length (text j))%nat) items ->
  (elements_size items + 1 <= 2 * String.length (elements_text items))%nat.
Proof.
  induction 1 as [|v items Hv HF IH]; [simpl; lia|].
  destruct items as [|v2 items].
  - change (elements_text [v]) with (text v ++ "]").
    rewrite string_app_length. simpl. lia.
  - change (elements_text (v :: v2 :: items))
      with (text v ++ "," ++ elements_text (v2 :: items)).
    rewrite string_app_length.
    change (String.length ("," ++ elements_text (v2 :: items)))
      with (S (String.length (elements_text (v2 :: items)))).
    change (elements_size (v :: v2 :: items))
      with (S (size v + elements_size (v2 :: items))).
    lia.
Qed.

Lemma members_size_le (props : list (string * json)) :
  Forall (fun kv => (size (snd kv) <= 2 * String.length (text (snd kv)))%nat) props ->
  (members_size props + 1 <= 2 * String.length (members_text props))%nat.
Proof.
  induction 1 as [|[k v] props Hv HF IH]; [simpl; lia|].
  simpl in Hv.
  destruct props as [|kv2 props].
  - change (members_text [(k, v)])
      with (text_of_string k ++ ":" ++ text v ++ "}").
    rewrite string_app_length.
    change (String.length (":" ++ text v ++ "}"))
      with (S (String.length (text v ++ "}"))).
    rewrite string_app_length. simpl. lia.
  - change (members_text ((k, v) :: kv2 :: props))
      with (text_of_string k ++ ":" ++ text v ++ "," ++ members_text (kv2 :: props)).
    rewrite string_app_length.
    change (String.length (":" ++ text v ++ "," ++ members_text (kv2 :: props)))
      with (S (String.length (text v ++ "," ++ members_text (kv2 :: props)))).
    rewrite string_app_length.
    change (String.length ("," ++ members_text (kv2 :: props)))
      with (S (String.length (members_text (kv2 :: props)))).
    change (members_size ((k, v) :: kv2 :: props))
      with (S (size v + members_size (kv2 :: props))).
    lia.
Qed.

Lemma size_le_text (j : json) : (size j <= 2 * String.length (text j))%nat.
Proof.
  induction j as [ | b | z | neg whole frac last | s | items HF | props HF]
    using json_induction.
  - simpl. lia.
  - destruct b; simpl; lia.
  - pose proof (text_length_pos (JNum z)). simpl size. lia.
  - pose proof (text_length_pos (JDec neg whole frac last)). simpl size. lia.
  - pose proof (text_length_pos (JStr s)). simpl size. lia.
  - rewrite size_array, text_array.
    change (String.length ("[" ++ elements_text items))
      with (S (String.length (elements_text items))).
    pose proof (elements_size_le HF). lia.
  - rewrite size_object, text_object.
    change (String.length ("{" ++ members_text props))
      with (S (String.length (members_text props))).
    pose proof (members_size_le HF). lia.
Qed.

(** [JSON.parse] reads back what [JSON.stringify] writes *)
Theorem parse_text (j : json) : parse (text j) = Some j.
Proof.
  unfold parse.
  pose proof (@parse_value_text j (2 * String.length (text j) + 2) "") as H.
  rewrite string_app_nil in H.
  rewrite H; [reflexivity | | exact I].
  pose proof (size_le_text j). lia.
Qed.

End JSONFacts.

(** ** The layout document store *)

(** *** the document schema accepts what [save] writes *)

Lemma layout_of_written (l : Layout) :
  layout_valid l = true -> Schema.layout_of (ToJSON.of_layout l) = Some l.
Proof.
  destruct l as [vi vx vy vw vh vminW vmaxW vminH vmaxH vd vr].
  unfold layout_valid. simpl.
  destruct vx; try discriminate.
  destruct vy; try discriminate.
  destruct vw; try discriminate.
  destruct vh; try discriminate.
  destruct vminW as [[]|]; try discriminate;
    destruct vmaxW as [[]|]; try discriminate;
    destruct vminH as [[]|]; try discriminate;
    destruct vmaxH as [[]|]; try discriminate;
    intros _; reflexivity.
Qed.

Lemma widget_of_written (gw : GridWidget) :
  widget_valid gw = true -> Schema.widget_of (ToJSON.of_widget gw) = Some gw.
Proof.
  destruct gw as [[k|] l [s|]]; unfold widget_valid; simpl; try discriminate.
  intros Hl.
  change (match Schema.layout_of (ToJSON.of_layout l) with
          | Some vl => Some {| id := Some k; layout := vl; settings := Some s |}
          | None => None
          end = Some {| id := Some k; layout := l; settings := Some s |}).
  rewrite (layout_of_written l Hl). reflexivity.
Qed.

Lemma widgets_of_written (ws : list GridWidget) :
  widgets_valid ws = true ->
  Schema.widgets_of (map ToJSON.of_widget ws) = Some ws.
Proof.
  unfold widgets_valid.
  induction ws as [|gw ws IH]; [reflexivity|].
  intros H. apply andb_true_iff in H. destruct H as [Hgw Hws].
  change (match Schema.widget_of (ToJSON.of_widget gw),
                Schema.widgets_of (map ToJSON.of_widget ws) with
          | Some g, Some gs => Some (g :: gs)
          | _, _ => None
          end = Some (gw :: ws)).
  rewrite (widget_of_written gw Hgw), (IH Hws). reflexivity.
Qed.

Lemma parse_written (ws : list GridWidget) :
  widgets_valid ws = true ->
  Schema.parse (ToJSON.of_state {| version := 1; pages := {| default := ws |} |})
  = Some {| version := 1; pages := {| default := ws |} |}.
Proof.
  intros H.
  change (match Schema.widgets_of (map ToJSON.of_widget ws) with
          | Some gws => Some {| version := 1; pages := {| default := gws |} |}
          | None => None
          end = Some {| version := 1; pages := {| default := ws |} |}).
  rewrite (widgets_of_written ws H). reflexivity.
Qed.


(** a present value that is a valid document is read as its
    [pages.default] *)
Lemma load_valid_document (homeSnapshot : StorageValueSnapshot)
    (text : string) (grid : json) (st : CustomHomepageGridStateV1)
    (defaultWidgets : list GridWidget) :
  presence homeSnapshot <> absent ->
  value homeSnapshot = Some text ->
  JSON.parse text = Some grid ->
  Schema.parse grid = Some st ->
  load homeSnapshot defaultWidgets = default (pages st).
Proof.
  intros Hp Hv Hj Hs. unfold load. rewrite Hv, Hj, Hs.
  destruct (presence homeSnapshot); [reflexivity | congruence | reflexivity].
Qed.

Lemma load_saved (ws defaultWidgets : list GridWidget) :
  widgets_valid ws = true -> load (stored (save ws)) defaultWidgets = ws.
Proof.
  intros H.
  rewrite (@load_valid_document (stored (save ws)) (save ws)
             (ToJSON.of_state {| version := 1; pages := {| default := ws |} |})
             {| version := 1; pages := {| default := ws |} |}).
  - reflexivity.
  - discriminate.
  - reflexivity.
  - apply JSONFacts.parse_text.
  - apply parse_written. exact H.
Qed.

(** *** the document schema and the document format *)











(** a text that [JSON.stringify] did not write is read as well: white
    space, fractions, exponents and escapes *)
Example parse_foreign_text :
  JSON.parse foreign_text
  = Some (JObj [("version", JNum 1);
       ("pages", JObj [("default", JArr [JObj [("id", JStr "clock__0k0");
          ("layout", JObj [("i", JStr "clock__0k0"); ("x", JNum 0); ("y", JNum 10);
                           ("w", JNum 4); ("h", JNum 2); ("maxW", JNum 4);
                           ("moved", JBool true);
                           ("isDraggable", JBool false); ("isResizable", JBool false)]);
          ("settings", JObj [("zoom", JDec false 1 Nil Nz5);
                             ("ratio", JDec true 0 (D2 Nil) Nz5);
                             ("label", JStr ("caf" ++ String "195" (String "169" "")))])]])])]).
Proof. vm_compute. reflexivity. Qed.




(** C2.  When the stored value is absent, or is not JSON, or is JSON
    that the document schema rejects, [load] returns the default widgets
    it was given.  [load] is a total function: no error leaves it. *)
Theorem load_falls_back_to_default
    (homeSnapshot : StorageValueSnapshot) (defaultWidgets : list GridWidget) :
  (presence homeSnapshot = absent
   \/ value homeSnapshot = None
   \/ (exists text, value homeSnapshot = Some text /\ JSON.parse text = None)
   \/ (exists text grid, value homeSnapshot = Some text
                         /\ JSON.parse text = Some grid
                         /\ Schema.parse grid = None)) ->
  load homeSnapshot defaultWidgets = defaultWidgets.
Proof.
  unfold load.
  intros [H|[H|[(text & H & Hp)|(text & grid & H & Hp & Hs)]]].
  - rewrite H. reflexivity.
  - rewrite H. destruct (presence homeSnapshot); reflexivity.
  - rewrite H, Hp. destruct (presence homeSnapshot); reflexivity.
  - rewrite H, Hp, Hs. destruct (presence homeSnapshot); reflexivity.
Qed.

Lemma load_falls_back_to_default_witness :
  load (mkSnapshot absent None) [clock_placement] = [clock_placement]
  /\ load (stored malformed_text) [clock_placement] = [clock_placement]
  /\ load (stored invalid_text) [clock_placement] = [clock_placement].
Proof.
  split; [|split].
  - apply load_falls_back_to_default. left. reflexivity.
  - apply load_falls_back_to_default. right; right; left.
    exists malformed_text. split; reflexivity.
  - apply load_falls_back_to_default. right; right; right.
    exists invalid_text, (JObj []). repeat split; reflexivity.
Defined.

Lemma Forall2_impl_right {A B} (R Q : A -> B -> Prop) (l : list A) (l' : list B) :
  Forall2 R l l' ->
  (forall a b, In b l' -> R a b -> Q a b) ->
  Forall2 Q l l'.
Proof.
  induction 1 as [|a b l l' Hab HF IH]; intros Himp; constructor.
  - apply Himp; [left; reflexivity | exact Hab].
  - apply IH. intros a' b' Hin. apply Himp. right. exact Hin.
Qed.

Lemma Forall2_In_left {A B} (R : A -> B -> Prop) (l : list A) (l' : list B) :
  Forall2 R l l' -> forall a, In a l -> exists b, In b l' /\ R a b.
Proof.
  induction 1 as [|a0 b0 l l' HR HF IH]; intros a Hin; simpl in *; [tauto|].
  destruct Hin as [<-|Hin].
  - exists b0. auto.
  - destruct (IH a Hin) as (b & Hb & Hab). exists b. auto.
Qed.

(** ** The default layout builder *)

Section Builder.

Variable availableWidgets : list Widget.

Lemma convert_entry_resolve (c : LayoutConfiguration) (idx : nat) (r : Rng) :
  convert_entry availableWidgets c idx r =
  match resolve availableWidgets c with
  | Some widget =>
      (Some (default_widget c idx widget (suffixes r (drawn r))),
       mkRng (suffixes r) (S (drawn r)))
  | None => (None, r)
  end.
Proof.
  unfold convert_entry, resolve, LayoutConfigurationSchema_parse.
  destruct (component_name c) as [nm|]; [|reflexivity].
  destruct (negb (JS.truthy nm)); [reflexivity|].
  destruct (find_widget availableWidgets nm); reflexivity.
Qed.

Lemma compact_mapi_from (config : list LayoutConfiguration) :
  forall (n : nat) (r : Rng),
    Forall2 built_for
      (compact (fst (mapi_from (convert_entry availableWidgets) n config r)))
      (resolved_from availableWidgets n config).
Proof.
  induction config as [|c config IH]; intros n r; simpl.
  - constructor.
  - unfold bind. rewrite convert_entry_resolve.
    destruct (resolve availableWidgets c) as [widget|].
    + specialize (IH (S n) (mkRng (suffixes r) (S (drawn r)))).
      destruct (mapi_from _ (S n) config _) as [bs r']. simpl in *.
      constructor; [|exact IH].
      exists (suffixes r (drawn r)). reflexivity.
    + specialize (IH (S n) r).
      destruct (mapi_from _ (S n) config _) as [bs r']. simpl in *.
      exact IH.
Qed.

Lemma convert_built (config : list LayoutConfiguration) (r : Rng) :
  Forall2 built_for
    (fst (convertConfigToDefaultWidgets config availableWidgets r))
    (resolved availableWidgets config).
Proof.
  unfold convertConfigToDefaultWidgets, mapi, bind, ret, resolved.
  pose proof (compact_mapi_from config 0 r) as H.
  destruct (mapi_from _ 0 config r) as [bs r']. exact H.
Qed.

(** the builder finds no widget exactly for the unresolvable entries *)
Lemma resolve_None_iff (c : LayoutConfiguration) :
  resolve availableWidgets c = None <-> unresolvable availableWidgets c = true.
Proof.
  unfold unresolvable, resolve, find_widget.
  destruct (component_name c) as [nm|]; [|tauto].
  destruct (JS.truthy nm); simpl; [|tauto].
  rewrite negb_true_iff.
  destruct (find _ availableWidgets) as [wd|] eqn:E; split.
  - discriminate.
  - intros H. apply find_some in E. destruct E as [Hin Heq].
    assert (Hex : existsb (fun wd0 => String.eqb (name wd0) nm) availableWidgets
                  = true)
      by (apply existsb_exists; exists wd; auto).
    congruence.
  - intros _.
    destruct (existsb _ availableWidgets) eqn:Hex; [|reflexivity].
    apply existsb_exists in Hex. destruct Hex as (wd & Hin & Heq).
    apply (find_none _ _ E) in Hin. congruence.
  - reflexivity.
Qed.

Lemma resolved_from_length (config : list LayoutConfiguration) :
  forall n,
    (List.length (resolved_from availableWidgets n config)
     + List.length (filter (unresolvable availableWidgets) config)
     = List.length config)%nat.
Proof.
  induction config as [|c config IH]; intros n; simpl; [reflexivity|].
  pose proof (resolve_None_iff c) as Hc.
  destruct (resolve availableWidgets c) as [widget|].
  - destruct (unresolvable availableWidgets c).
    + destruct Hc as [_ Hc]. discriminate (Hc eq_refl).
    + simpl. rewrite <- (IH (S n)). lia.
  - destruct Hc as [Hc _]. rewrite (Hc eq_refl). simpl.
    rewrite <- (IH (S n)). lia.
Qed.

Lemma resolved_from_In (config : list LayoutConfiguration) :
  forall n idx c widget,
    In (idx, c, widget) (resolved_from availableWidgets n config) ->
    nth_error config (idx - n) = Some c /\ (n <= idx)%nat
    /\ resolve availableWidgets c = Some widget.
Proof.
  induction config as [|c0 config IH]; intros n idx c widget; simpl; [tauto|].
  destruct (resolve availableWidgets c0) as [w0|] eqn:E.
  - intros [H|H].
    + inversion H; subst. rewrite Nat.sub_diag. simpl. auto.
    + apply IH in H. destruct H as (Hn & Hle & Hr).
      replace (idx - n)%nat with (S (idx - S n)) by lia. simpl. auto with arith.
  - intros H. apply IH in H. destruct H as (Hn & Hle & Hr).
    replace (idx - n)%nat with (S (idx - S n)) by lia. simpl. auto with arith.
Qed.

(** the sizes of the placement built for an entry *)
Lemma default_widget_sizes (c : LayoutConfiguration) (idx : nat)
    (widget : Widget) (sfx : string) :
  let l := layout (default_widget c idx widget sfx) in
  maxW l = option_map JS.Fin (maxWidth widget)
  /\ maxH l = option_map JS.Fin (maxHeight widget)
  /\ (forall m, maxWidth widget = Some m ->
        w l = JS.Fin (Z.min m (conf_width c)) /\ JS.leb (w l) (JS.Fin m) = true)
  /\ (forall m, maxHeight widget = Some m ->
        h l = JS.Fin (Z.min m (conf_height c)) /\ JS.leb (h l) (JS.Fin m) = true).
Proof.
  simpl. split; [reflexivity|]. split; [reflexivity|].
  split; intros m Hm; rewrite Hm; simpl;
    (split; [reflexivity | apply Z.leb_le; lia]).
Qed.

End Builder.

(** every entry that resolves is among the resolved entries, under its
    index *)
Lemma resolved_from_complete (availableWidgets : list Widget)
    (config : list LayoutConfiguration) :
  forall n idx c widget,
    nth_error config idx = Some c ->
    resolve availableWidgets c = Some widget ->
    In ((n + idx)%nat, c, widget) (resolved_from availableWidgets n config).
Proof.
  induction config as [|c0 config IH]; intros n idx c widget Hn Hr.
  - destruct idx; discriminate Hn.
  - destruct idx as [|idx]; simpl in Hn.
    + inversion Hn; subst. simpl. rewrite Hr, Nat.add_0_r. left. reflexivity.
    + simpl. replace (n + S idx)%nat with (S n + idx)%nat by lia.
      destruct (resolve availableWidgets c0); [right|]; apply IH; assumption.
Qed.

(** each placement of the builder, with the entry it was built for *)
Lemma build_entries (config : list LayoutConfiguration)
    (availableWidgets : list Widget) (r : Rng) :
  Forall2
    (fun gw e =>
       let '(idx, c, widget) := e in
       nth_error config idx = Some c
       /\ resolve availableWidgets c = Some widget
       /\ exists sfx, gw = default_widget c idx widget sfx)
    (fst (convertConfigToDefaultWidgets config availableWidgets r))
    (resolved availableWidgets config).
Proof.
  apply (@Forall2_impl_right _ _ _ _ _ _ (convert_built availableWidgets config r)).
  intros gw [[idx c] widget] Hin Hb.
  apply resolved_from_In in Hin. destruct Hin as (Hn & _ & Hr).
  rewrite Nat.sub_0_r in Hn. auto.
Qed.

(** C4.  The placements of the builder are, one for one and in order,
    the placements built for the entries of the configuration that
    resolve, each entry with its index and the catalog widget it resolves
    to.  The placement of an entry carries the maxima of that widget as
    [maxW] and [maxH]; when [maxWidth] is set, its [w] is the minimum of
    [maxWidth] and the width the entry asks for, so it never exceeds
    [maxWidth], and likewise [h] with [maxHeight].  Every entry that
    resolves is one of these entries, and in every placement [w] and [h]
    are within the [maxW] and [maxH] that the placement itself carries. *)
Theorem build_clamps_to_catalog_bounds
    (config : list LayoutConfiguration) (availableWidgets : list Widget)
    (r : Rng) :
  Forall2
    (fun gw e =>
       let '(idx, c, widget) := e in
       nth_error config idx = Some c
       /\ resolve availableWidgets c = Some widget
       /\ (exists sfx, gw = default_widget c idx widget sfx)
       /\ maxW (layout gw) = option_map JS.Fin (maxWidth widget)
       /\ maxH (layout gw) = option_map JS.Fin (maxHeight widget)
       /\ (forall m, maxWidth widget = Some m ->
             w (layout gw) = JS.Fin (Z.min m (conf_width c))
             /\ JS.leb (w (layout gw)) (JS.Fin m) = true)
       /\ (forall m, maxHeight widget = Some m ->
             h (layout gw) = JS.Fin (Z.min m (conf_height c))
             /\ JS.leb (h (layout gw)) (JS.Fin m) = true))
    (fst (convertConfigToDefaultWidgets config availableWidgets r))
    (resolved availableWidgets config)
  /\ (forall idx c widget,
        nth_error config idx = Some c ->
        resolve availableWidgets c = Some widget ->
        In (idx, c, widget) (resolved availableWidgets config))
  /\ (forall gw,
        In gw (fst (convertConfigToDefaultWidgets config availableWidgets r)) ->
        (forall m, maxW (layout gw) = Some m ->
                   JS.leb (w (layout gw)) m = true)
        /\ (forall m, maxH (layout gw) = Some m ->
                      JS.leb (h (layout gw)) m = true)).
Proof.
  assert (Hall :
    Forall2
      (fun gw e =>
         let '(idx, c, widget) := e in
         nth_error config idx = Some c
         /\ resolve availableWidgets c = Some widget
         /\ (exists sfx, gw = default_widget c idx widget sfx)
         /\ maxW (layout gw) = option_map JS.Fin (maxWidth widget)
         /\ maxH (layout gw) = option_map JS.Fin (maxHeight widget)
         /\ (forall m, maxWidth widget = Some m ->
               w (layout gw) = JS.Fin (Z.min m (conf_width c))
               /\ JS.leb (w (layout gw)) (JS.Fin m) = true)
         /\ (forall m, maxHeight widget = Some m ->
               h (layout gw) = JS.Fin (Z.min m (conf_height c))
               /\ JS.leb (h (layout gw)) (JS.Fin m) = true))
      (fst (convertConfigToDefaultWidgets config availableWidgets r))
      (resolved availableWidgets config)).
  { apply (@Forall2_impl_right _ _ _ _ _ _ (build_entries config availableWidgets r)).
    intros gw [[idx c] widget] _ (Hn & Hr & sfx & ->).
    pose proof (default_widget_sizes c idx widget sfx) as Hs.
    cbv zeta in Hs. destruct Hs as (H1 & H2 & H3 & H4).
    repeat split; eauto; try (apply H3; assumption); apply H4; assumption. }
  split; [exact Hall|]. split.
  - intros idx c widget Hn Hr.
    apply (@resolved_from_complete availableWidgets config 0 idx c widget Hn Hr).
  - intros gw Hin.
    destruct (Forall2_In_left Hall gw Hin)
      as ([[idx c] widget] & _ & _ & _ & _ & HmW & HmH & Hw & Hh).
    split; intros m Hm.
    + rewrite HmW in Hm. destruct (maxWidth widget) as [mw|]; [|discriminate].
      inversion Hm; subst. apply (Hw mw eq_refl).
    + rewrite HmH in Hm. destruct (maxHeight widget) as [mh|]; [|discriminate].
      inversion Hm; subst. apply (Hh mh eq_refl).
Qed.

Example build_clock :
  map (fun gw => (w (layout gw), h (layout gw)))
      (fst (convertConfigToDefaultWidgets clock_config [clock] some_rng))
  = [(JS.Fin 4, JS.Fin 2)].
Proof. reflexivity. Qed.

Lemma build_clamps_to_catalog_bounds_witness :
  map (fun gw => (i (layout gw), w (layout gw), h (layout gw), maxW (layout gw)))
    (fst (convertConfigToDefaultWidgets mixed_config [clock; banner] some_rng))
  = [("banner__0k0", JS.Fin 10, JS.Fin 3, None);
     ("clock__2k1", JS.Fin 4, JS.Fin 2, Some (JS.Fin 4))]
  /\ map (fun e => (fst (fst e), name (snd e))) (resolved [clock; banner] mixed_config)
     = [(0%nat, "banner"); (2%nat, "clock")]
  /\ forall gw,
       In gw (fst (convertConfigToDefaultWidgets mixed_config [clock; banner] some_rng)) ->
       (forall m, maxW (layout gw) = Some m -> JS.leb (w (layout gw)) m = true)
       /\ (forall m, maxH (layout gw) = Some m -> JS.leb (h (layout gw)) m = true).
Proof.
  split; [reflexivity|]. split; [reflexivity|].
  apply (build_clamps_to_catalog_bounds mixed_config [clock; banner] some_rng).
Defined.


(** C5.  Of a configuration of length N with M unresolvable entries the
    builder returns N - M placements, one for each entry that resolves,
    in the order of the configuration; it is a total function, so there
    is no error. *)
Theorem build_drops_unresolvable
    (config : list LayoutConfiguration) (availableWidgets : list Widget)
    (r : Rng) :
  let out := fst (convertConfigToDefaultWidgets config availableWidgets r) in
  List.length out
  = (List.length config
     - List.length (filter (unresolvable availableWidgets) config))%nat
  /\ Forall2 built_for out (resolved availableWidgets config).
Proof.
  simpl.
  pose proof (convert_built availableWidgets config r) as HF.
  split; [|exact HF].
  rewrite (Forall2_length HF). unfold resolved.
  pose proof (resolved_from_length availableWidgets config 0). lia.
Qed.

(** *** the default layout is a valid widget sequence *)

Lemma min_nullish_finite (o : option Z) (m v : Z) :
  JS.isFinite (JS.min (JS.nullish o (JS.Fin m)) (JS.Fin v)) = true.
Proof. destruct o; reflexivity. Qed.

Lemma default_widget_valid (c : LayoutConfiguration) (idx : nat)
    (widget : Widget) (sfx : string) :
  widget_valid (default_widget c idx widget sfx) = true.
Proof.
  unfold widget_valid, default_widget, layout_valid.
  cbn [id settings layout x y w h minW maxW minH maxH].
  rewrite !min_nullish_finite.
  destruct (minWidth widget), (maxWidth widget),
           (minHeight widget), (maxHeight widget); reflexivity.
Qed.

Lemma build_valid (config : list LayoutConfiguration)
    (availableWidgets : list Widget) (r : Rng) :
  widgets_valid (fst (convertConfigToDefaultWidgets config availableWidgets r))
  = true.
Proof.
  unfold widgets_valid. apply forallb_forall. intros gw Hin.
  destruct (Forall2_In_left (convert_built availableWidgets config r) gw Hin)
    as ([[idx c] widget] & _ & sfx & ->).
  apply default_widget_valid.
Qed.

(** ** The handlers *)

(** the position of an added widget, whatever the list *)
Lemma added_widget_position (widgets : list GridWidget) (editMode : bool)
    (widget : Widget) (sfx : string) :
  let l := layout (added_widget widgets editMode widget sfx) in
  x l = JS.Fin 0
  /\ y l = JS.add
             (JS.max_list
                (map (fun gw => JS.add (y (layout gw)) (h (layout gw))) widgets))
             (JS.Fin 1).
Proof. split; reflexivity. Qed.

(** on a list of widgets with finite positions and heights, which is not
    empty, the added widget goes one row below the lowest edge *)
Lemma max_list_finite (l : list JS.number) :
  l <> [] -> Forall (fun n => JS.isFinite n = true) l ->
  exists z, JS.max_list l = JS.Fin z
            /\ In (JS.Fin z) l
            /\ Forall (fun n => JS.leb n (JS.Fin z) = true) l.
Proof.
  induction l as [|n l IH]; intros Hne HF; [congruence|].
  inversion HF as [|n' l' Hn HF']; subst.
  destruct n as [zn| | |]; try discriminate.
  destruct l as [|n2 l].
  - exists zn. simpl. repeat split; auto.
    constructor; [|constructor]. apply Z.leb_refl.
  - destruct (IH ltac:(discriminate) HF') as (z & Hz & Hin & Hle).
    unfold JS.max_list in *. simpl fold_right in *. rewrite Hz.
    exists (Z.max zn z). split; [reflexivity|]. split.
    + destruct (Z.max_spec zn z) as [[_ ->]|[_ ->]]; [right; exact Hin | left; reflexivity].
    + constructor; [simpl; apply Z.leb_le; lia|].
      eapply Forall_impl; [|exact Hle].
      intros a Ha. destruct a; simpl in *; try discriminate; auto.
      apply Z.leb_le. apply Z.leb_le in Ha. lia.
Qed.

(** C3, the case the code misses.  With no widget in the list,
    [Math.max()] is [-Infinity] and so is the [y] of the added widget: it
    is not 0. *)
Theorem add_to_empty_list_y (editMode : bool) (widget : Widget) (sfx : string) :
  y (layout (added_widget [] editMode widget sfx)) = JS.NegInfinity
  /\ y (layout (added_widget [] editMode widget sfx)) <> JS.Fin 0.
Proof. split; [reflexivity | discriminate]. Qed.

(** what the store then holds is a document with [null] for [y], which
    [load] rejects: the widget added to an empty list is not read back *)
Example add_to_empty_list_stored :
  let hk := fst (handleAdd {| defaultLayout := []; widgets := [] |} clock
                   (mkHooks (stored (save [])) false false) some_rng) in
  value (homeSnapshot hk) = Some (save lost_widgets)
  /\ ToJSON.number (y (layout (added_widget [] false clock "k0"))) = JNull
  /\ Schema.parse (ToJSON.of_state (mkState 1 (mkPages lost_widgets))) = None
  /\ load (homeSnapshot hk) [] = [].
Proof. repeat split; reflexivity. Qed.

(** on a list that is not empty, of widgets with finite positions, the
    added widget has [x = 0] and [y] one more than the largest [y + h] of
    the list *)
Lemma add_to_nonempty_list_y (widgets : list GridWidget) (editMode : bool)
    (widget : Widget) (sfx : string) :
  widgets <> [] ->
  Forall (fun gw => JS.isFinite (y (layout gw)) = true
                    /\ JS.isFinite (h (layout gw)) = true) widgets ->
  exists z,
    x (layout (added_widget widgets editMode widget sfx)) = JS.Fin 0
    /\ y (layout (added_widget widgets editMode widget sfx)) = JS.Fin (z + 1)
    /\ (exists gw, In gw widgets
                   /\ JS.add (y (layout gw)) (h (layout gw)) = JS.Fin z)
    /\ Forall (fun gw =>
                 JS.leb (JS.add (y (layout gw)) (h (layout gw))) (JS.Fin z) = true)
              widgets.
Proof.
  intros Hne HF.
  destruct (@max_list_finite
              (map (fun gw => JS.add (y (layout gw)) (h (layout gw))) widgets))
    as (z & Hz & Hin & Hle).
  - destruct widgets; [congruence | discriminate].
  - apply Forall_map. eapply Forall_impl; [|exact HF].
    intros gw [Hy Hh]. destruct (y (layout gw)), (h (layout gw)); try discriminate.
    reflexivity.
  - exists z. split; [reflexivity|]. split; [simpl; rewrite Hz; reflexivity|].
    split.
    + apply in_map_iff in Hin. destruct Hin as (gw & Hgw & Hin). eauto.
    + apply Forall_map in Hle. exact Hle.
Qed.

Lemma add_to_nonempty_list_y_witness :
  exists z,
    x (layout (added_widget [clock_placement] false clock "k1")) = JS.Fin 0
    /\ y (layout (added_widget [clock_placement] false clock "k1")) = JS.Fin (z + 1)
    /\ (exists gw, In gw [clock_placement]
                   /\ JS.add (y (layout gw)) (h (layout gw)) = JS.Fin z)
    /\ Forall (fun gw =>
                 JS.leb (JS.add (y (layout gw)) (h (layout gw))) (JS.Fin z) = true)
              [clock_placement].
Proof.
  apply (@add_to_nonempty_list_y [clock_placement] false clock "k1").
  - discriminate.
  - constructor; [split; reflexivity | constructor].
Defined.

(** C7.  [remove(id)] writes a list in which no widget has that id, the
    widgets of other ids are kept as they are and in their order; when no
    widget has the id the list is the one before. *)
Theorem remove_filters_by_id (rd : Render) (widgetId : string) (hk : Hooks) :
  handleRemove rd widgetId hk = setWidgets (removed (widgets rd) widgetId) hk
  /\ Forall (fun gw => id gw <> Some widgetId) (removed (widgets rd) widgetId)
  /\ Without widgetId (widgets rd) (removed (widgets rd) widgetId)
  /\ (Forall (fun gw => id gw <> Some widgetId) (widgets rd) ->
      removed (widgets rd) widgetId = widgets rd).
Proof.
  assert (Hdiff : forall gw, id_differs widgetId gw = true <-> id gw <> Some widgetId).
  { intros gw. unfold id_differs. destruct (id gw) as [k|].
    - rewrite negb_true_iff, String.eqb_neq. split; congruence.
    - split; [discriminate | reflexivity]. }
  split; [reflexivity|]. unfold removed. split; [|split].
  - apply Forall_forall. intros gw Hin. apply filter_In in Hin.
    apply Hdiff. tauto.
  - induction (widgets rd) as [|gw ws IH]; simpl; [constructor|].
    destruct (id_differs widgetId gw) eqn:E.
    + apply Without_keep; [apply Hdiff; exact E | exact IH].
    + apply Without_drop; [|exact IH].
      destruct (id gw) as [k|] eqn:Ek; unfold id_differs in E; rewrite Ek in E;
        [|discriminate].
      apply negb_false_iff, String.eqb_eq in E. congruence.
  - intros HF. induction HF as [|gw ws Hgw HF IH]; simpl; [reflexivity|].
    apply Hdiff in Hgw. rewrite Hgw, IH. reflexivity.
Qed.

Lemma remove_filters_by_id_witness :
  removed (widgets editing_render) "clock__0k0" = []
  /\ removed (widgets editing_render) "clock__7zz" = widgets editing_render.
Proof.
  split.
  - reflexivity.
  - apply (proj2 (proj2 (proj2
             (remove_filters_by_id editing_render "clock__7zz" editing_hooks)))).
    constructor; [discriminate | constructor].
Defined.

(** ** Layout changes and the edit mode *)

Lemma render_widgets (props : Props) (hk : Hooks) (r : Rng) :
  widgets (fst (render props hk r))
  = load (homeSnapshot hk) (defaultLayout (fst (render props hk r))).
Proof.
  unfold render, bind, ret.
  destruct (match config props with
            | Some c => convertConfigToDefaultWidgets c (availableWidgets props)
            | None => fun r0 => ([], r0)
            end r) as [dl r'].
  reflexivity.
Qed.

(** a layout change outside the edit mode writes nothing and sets
    nothing *)
Lemma layout_change_ignored (rd : Render) (newLayout : list Layout) (hk : Hooks) :
  editMode hk = false -> handleLayoutChange rd newLayout hk = hk.
Proof. intros H. unfold handleLayoutChange. rewrite H. reflexivity. Qed.

Lemma dispatch_layout_change_ignored (props : Props) (newLayout : list Layout)
    (hk : Hooks) (r : Rng) :
  editMode hk = false ->
  fst (dispatch props (LayoutChange newLayout) hk r) = hk.
Proof.
  intros H. unfold dispatch, bind, ret.
  destruct (render props hk r) as [rd r']. simpl.
  apply layout_change_ignored. exact H.
Qed.

Lemma run_layout_changes_ignored (props : Props) (newLayouts : list (list Layout)) :
  forall (hk : Hooks) (r : Rng),
    editMode hk = false ->
    fst (run props (map LayoutChange newLayouts) hk r) = hk.
Proof.
  induction newLayouts as [|nl nls IH]; intros hk r H; simpl; [reflexivity|].
  unfold bind.
  pose proof (dispatch_layout_change_ignored props nl hk r H) as Hd.
  destruct (dispatch props (LayoutChange nl) hk r) as [hk' r']. simpl in Hd.
  subst hk'. apply IH. exact H.
Qed.

Lemma changeEditMode_editMode (rd : Render) (mode : bool) (hk : Hooks) :
  editMode (changeEditMode rd mode hk) = mode.
Proof. reflexivity. Qed.

(** C6.  A layout-change event that arrives while the edit mode is
    false leaves the state as it was.  In particular, after
    [setEditMode(false)], layout-change events, however many and whatever
    layouts they carry, leave it as it was: the store is not written and
    the widgets read from it are the same. *)
Theorem layout_changes_ignored_when_locked
    (props : Props) (hk : Hooks) (r : Rng) (newLayouts : list (list Layout))
    (r1 r2 : Rng) :
  (editMode hk = false ->
   forall newLayout,
     fst (dispatch props (LayoutChange newLayout) hk r1) = hk)
  /\ let hk1 := fst (dispatch props (ChangeEditMode false) hk r) in
     let hk2 := fst (run props (map LayoutChange newLayouts) hk1 r1) in
     editMode hk1 = false
     /\ hk2 = hk1
     /\ homeSnapshot hk2 = homeSnapshot hk1
     /\ shown props hk2 r2 = shown props hk1 r2.
Proof.
  split.
  - intros H newLayout. apply dispatch_layout_change_ignored. exact H.
  - simpl.
    assert (Hmode : editMode (fst (dispatch props (ChangeEditMode false) hk r))
                    = false).
    { unfold dispatch, bind, ret. destruct (render props hk r) as [rd r'].
      reflexivity. }
    rewrite (run_layout_changes_ignored props newLayouts _ r1 Hmode).
    repeat split; [exact Hmode | reflexivity ..].
Qed.

Lemma layout_changes_ignored_when_locked_witness :
  let props := {| config := Some clock_config; availableWidgets := [clock] |} in
  let hk := setEditMode false editing_hooks in
  editMode hk = false
  /\ fst (dispatch props (LayoutChange [skewed_layout]) hk some_rng) = hk.
Proof.
  split; [reflexivity|].
  apply (proj1 (layout_changes_ignored_when_locked
                  {| config := Some clock_config; availableWidgets := [clock] |}
                  (setEditMode false editing_hooks) some_rng [] some_rng some_rng)).
  reflexivity.
Defined.






(** ** The flags of the layouts *)

Lemma default_widget_flags (c : LayoutConfiguration) (idx : nat)
    (widget : Widget) (sfx : string) :
  flags_are false (default_widget c idx widget sfx).
Proof. split; reflexivity. Qed.

Lemma build_flags (config : list LayoutConfiguration)
    (availableWidgets : list Widget) (r : Rng) :
  Forall (flags_are false)
         (fst (convertConfigToDefaultWidgets config availableWidgets r)).
Proof.
  apply Forall_forall. intros gw Hin.
  destruct (Forall2_In_left (convert_built availableWidgets config r) gw Hin)
    as ([[idx c] widget] & _ & sfx & ->).
  apply default_widget_flags.
Qed.

(** C8, as the code has it.  [add] writes the list it was given followed
    by one new widget, whose two flags are both the edit mode at that
    time, which the add leaves as it is.  [setEditMode(mode)] sets the
    edit mode and rewrites the two flags of every widget to [mode].  The
    builder writes both flags as [false], whatever the edit mode.  A
    layout change in the edit mode writes the merged list, in which the
    flags of each widget are those of the item of the engine, whatever
    they are. *)
Theorem flags_written (rd : Render) (hk : Hooks) (mode : bool)
    (widget : Widget)
    (config : list LayoutConfiguration) (availableWidgets : list Widget)
    (r : Rng) (newLayout : list Layout) :
  (exists gw,
      fst (handleAdd rd widget hk r)
      = setAddWidgetDialogOpen false (setWidgets (widgets rd ++ [gw]) hk)
      /\ (exists sfx, gw = added_widget (widgets rd) (editMode hk) widget sfx)
      /\ flags_are (editMode hk) gw
      /\ editMode (fst (handleAdd rd widget hk r)) = editMode hk)
  /\ (editMode (changeEditMode rd mode hk) = mode
      /\ changeEditMode rd mode hk
         = setWidgets (map (with_mode mode) (widgets rd)) (setEditMode mode hk)
      /\ List.length (map (with_mode mode) (widgets rd)) = List.length (widgets rd)
      /\ Forall (flags_are mode) (map (with_mode mode) (widgets rd)))
  /\ Forall (flags_are false)
       (fst (convertConfigToDefaultWidgets config availableWidgets r))
  /\ (map (fun gw => (isDraggable (layout gw), isResizable (layout gw)))
        (merged (widgets rd) newLayout)
      = map (fun l => (isDraggable l, isResizable l)) newLayout
      /\ (editMode hk = true ->
          handleLayoutChange rd newLayout hk
          = setWidgets (merged (widgets rd) newLayout) hk)).
Proof.
  split; [|split; [|split]].
  - exists (added_widget (widgets rd) (editMode hk) widget (suffixes r (drawn r))).
    split; [reflexivity|]. split; [eexists; reflexivity|].
    split; [split; reflexivity | reflexivity].
  - split; [reflexivity|]. split; [reflexivity|].
    split; [apply length_map|].
    apply Forall_forall. intros gw Hin. apply in_map_iff in Hin.
    destruct Hin as (gw0 & <- & _). split; reflexivity.
  - apply build_flags.
  - split.
    + unfold merged. rewrite map_map. apply map_ext. intros l.
      unfold merged_widget. destruct (find_by_id (widgets rd) (i l)); reflexivity.
    + intros Hm. unfold handleLayoutChange. rewrite Hm. reflexivity.
Qed.

(** C8 as it is stated fails on a layout change: in the edit mode the
    handler writes the item of the engine as the layout, and its two
    flags need not be equal, nor equal to the edit mode. *)
Lemma layout_change_writes_engine_flags :
  editMode editing_hooks = true
  /\ handleLayoutChange editing_render [skewed_layout] editing_hooks
     = setWidgets [ {| id := Some "clock__0k0"; layout := skewed_layout;
                       settings := Some [] |} ] editing_hooks
  /\ isDraggable skewed_layout <> isResizable skewed_layout
  /\ ~ flags_are (editMode editing_hooks)
         {| id := Some "clock__0k0"; layout := skewed_layout; settings := Some [] |}.
Proof.
  split; [reflexivity|]. split; [reflexivity|]. split; [discriminate|].
  intros [_ H]. discriminate H.
Qed.

(** ** Clearing and restoring the default layout *)

(** the default layout a render computes *)
Lemma render_defaultLayout (props : Props) (hk : Hooks) (r : Rng) :
  defaultLayout (fst (render props hk r))
  = match config props with
    | Some c => fst (convertConfigToDefaultWidgets c (availableWidgets props) r)
    | None => []
    end.
Proof.
  unfold render, bind, ret.
  destruct (config props) as [c|]; [|reflexivity].
  destruct (convertConfigToDefaultWidgets c (availableWidgets props) r).
  reflexivity.
Qed.

Lemma render_defaultLayout_valid (props : Props) (hk : Hooks) (r : Rng) :
  widgets_valid (defaultLayout (fst (render props hk r))) = true.
Proof.
  rewrite render_defaultLayout.
  destruct (config props); [apply build_valid | reflexivity].
Qed.

Lemma shown_after_setWidgets (props : Props) (ws : list GridWidget)
    (hk : Hooks) (r : Rng) :
  widgets_valid ws = true -> shown props (setWidgets ws hk) r = ws.
Proof.
  intros H. unfold shown. rewrite render_widgets. apply load_saved. exact H.
Qed.

Lemma dispatch_ClearLayout (props : Props) (hk : Hooks) (r : Rng) :
  fst (dispatch props ClearLayout hk r) = setWidgets [] hk.
Proof.
  unfold dispatch, bind, ret. destruct (render props hk r). reflexivity.
Qed.

Lemma dispatch_RestoreDefault (props : Props) (hk : Hooks) (r : Rng) :
  fst (dispatch props RestoreDefault hk r)
  = setWidgets (defaultLayout (fst (render props hk r))) hk.
Proof.
  unfold dispatch, bind, ret. destruct (render props hk r). reflexivity.
Qed.

(** C9.  After [clear()] the widget list is empty.  [restoreDefault()]
    then writes the default layout of the render it is called in, the
    one the builder computes from the configuration and the catalog, and
    that layout is what the next render shows, whatever the store held
    before. *)
Theorem clear_then_restore_default
    (props : Props) (hk : Hooks) (r r1 r2 : Rng) :
  let hk1 := fst (dispatch props ClearLayout hk r) in
  let hk2 := fst (dispatch props RestoreDefault hk1 r1) in
  hk1 = setWidgets [] hk
  /\ shown props hk1 r1 = []
  /\ hk2 = setWidgets (defaultLayout (fst (render props hk1 r1))) hk1
  /\ shown props hk2 r2 = defaultLayout (fst (render props hk1 r1))
  /\ defaultLayout (fst (render props hk1 r1))
     = match config props with
       | Some c => fst (convertConfigToDefaultWidgets c (availableWidgets props) r1)
       | None => []
       end.
Proof.
  simpl. rewrite dispatch_RestoreDefault, dispatch_ClearLayout.
  split; [reflexivity|]. split; [|split; [reflexivity|split]].
  - apply shown_after_setWidgets. reflexivity.
  - apply shown_after_setWidgets. apply render_defaultLayout_valid.
  - apply render_defaultLayout.
Qed.

(** the clock example: cleared, then restored *)
Example clear_then_restore_clock :
  let props := {| config := Some clock_config; availableWidgets := [clock] |} in
  let hk1 := fst (dispatch props ClearLayout editing_hooks some_rng) in
  let hk2 := fst (dispatch props RestoreDefault hk1 some_rng) in
  shown props hk1 some_rng = [] /\ shown props hk2 some_rng = [clock_placement].
Proof. split; vm_compute; reflexivity. Qed.

(* ===================================================================== *)
(** * Further properties *)
(* ===================================================================== *)

(** ** What [load] returns after [save] *)

Lemma get_app (k : string) (a b : list (string * json)) :
  Schema.get k (a ++ b)%list
  = match Schema.get k b with
    | Some v => Some v
    | None => Schema.get k a
    end.
Proof.
  induction a as [|[k0 v0] a IH]; simpl.
  - destruct (Schema.get k b); reflexivity.
  - rewrite IH. destruct (Schema.get k b); reflexivity.
Qed.











(** ** From an id back to the name of its widget *)

Lemma has_separator_cons (c : ascii) (s : string) :
  has_separator (String c s)
  = match s with
    | String c' _ => (Ascii.eqb c "_" && Ascii.eqb c' "_") || has_separator s
    | EmptyString => false
    end.
Proof. reflexivity. Qed.

Lemma name_from_key_iff (nm rest : string) :
  getWidgetNameFromKey (nm ++ "__" ++ rest) = nm <-> well_named nm = true.
Proof.
  unfold well_named. rewrite negb_true_iff.
  induction nm as [|c nm IH].
  - simpl. split; reflexivity.
  - change (String c nm ++ "__" ++ rest) with (String c (nm ++ "__" ++ rest)).
    change (String c nm ++ "_") with (String c (nm ++ "_")).
    rewrite has_separator_cons.
    cbn [getWidgetNameFromKey].
    destruct nm as [|c' nm].
    + (* the name is the one character [c] *)
      cbn [append].
      destruct (Ascii.eqb c "_") eqn:Ec; simpl;
        split; try reflexivity; discriminate.
    + change (String c' nm ++ "__" ++ rest)
        with (String c' (nm ++ "__" ++ rest)) in *.
      change (String c' nm ++ "_") with (String c' (nm ++ "_")) in *.
      cbv iota.
      destruct (Ascii.eqb c "_" && Ascii.eqb c' "_") eqn:E.
      * apply andb_true_iff in E. destruct E as [Ec Ec'].
        rewrite Ec, Ec'. simpl. split; discriminate.
      * rewrite orb_false_l. rewrite <- IH.
        assert (Hstep :
                  (if Ascii.eqb c "_"
                   then if Ascii.eqb c' "_" then ""
                        else String c (getWidgetNameFromKey
                                         (String c' (nm ++ "__" ++ rest)))
                   else String c (getWidgetNameFromKey
                                    (String c' (nm ++ "__" ++ rest))))
                  = String c (getWidgetNameFromKey
                                (String c' (nm ++ "__" ++ rest)))).
        { destruct (Ascii.eqb c "_"), (Ascii.eqb c' "_"); try reflexivity.
          discriminate E. }
        rewrite Hstep. split.
        -- intros H. inversion H as [H']. rewrite H'. exact H'.
        -- intros H. rewrite H. reflexivity.
Qed.

(** The ids of the widgets of a catalog widget are its name, "__" and
    more.  The name that the component reads back from such an id is the
    name of the widget exactly when that name holds no "__" and does not
    end in "_"; otherwise it is a shorter one. *)
Theorem name_from_key (nm rest : string) :
  (getWidgetNameFromKey (nm ++ "__" ++ rest) = nm <-> well_named nm = true)
  /\ (getWidgetNameFromKey (nm ++ "__" ++ rest) = nm
      \/ (String.length (getWidgetNameFromKey (nm ++ "__" ++ rest))
          < String.length nm)%nat).
Proof.
  split; [apply name_from_key_iff|].
  induction nm as [|c nm IH]; [left; reflexivity|].
  change (String c nm ++ "__" ++ rest) with (String c (nm ++ "__" ++ rest)).
  cbn [getWidgetNameFromKey].
  assert (Hcons : String c (getWidgetNameFromKey (nm ++ "__" ++ rest))
                  = String c nm
                  \/ (String.length
                        (String c (getWidgetNameFromKey (nm ++ "__" ++ rest)))
                      < String.length (String c nm))%nat).
  { destruct IH as [IH|IH]; [left; rewrite IH; reflexivity|].
    right. cbn [String.length]. lia. }
  destruct (Ascii.eqb c "_"); [|exact Hcons].
  destruct (nm ++ "__" ++ rest) as [|c' s'] eqn:E.
  - destruct nm; discriminate E.
  - destruct (Ascii.eqb c' "_"); [|exact Hcons].
    right. cbn [String.length]. lia.
Qed.

(** ** The props handed to a drawn widget *)

Lemma get_replace (k k' : string) (v : json) (o : object) :
  Schema.get k
    (map (fun p => if String.eqb (fst p) k' then (fst p, v) else p) o)
  = if String.eqb k' k
    then if existsb (fun p => String.eqb (fst p) k') o then Some v else None
    else Schema.get k o.
Proof.
  induction o as [|[k0 v0] o IH].
  - simpl. destruct (String.eqb k' k); reflexivity.
  - cbn [map existsb fst]. destruct (String.eqb k0 k') eqn:E0;
      cbn [Schema.get orb]; rewrite IH; destruct (String.eqb k' k) eqn:Ek.
    + apply String.eqb_eq in E0, Ek. subst k0 k'. rewrite String.eqb_refl.
      destruct (existsb _ o); reflexivity.
    + apply String.eqb_eq in E0. subst k0. rewrite Ek.
      destruct (Schema.get k o); reflexivity.
    + apply String.eqb_eq in Ek. subst k'. rewrite E0.
      destruct (existsb _ o); reflexivity.
    + reflexivity.
Qed.

Lemma get_assign (k : string) (o : object) (kv : string * json) :
  Schema.get k (assign o kv)
  = if String.eqb (fst kv) k then Some (snd kv) else Schema.get k o.
Proof.
  destruct kv as [k' v]. unfold assign. cbn [fst snd].
  destruct (existsb (fun p => String.eqb (fst p) k') o) eqn:E.
  - rewrite get_replace, E. reflexivity.
  - rewrite get_app. simpl. destruct (String.eqb k' k); reflexivity.
Qed.

Lemma get_fold_assign (k : string) (l : object) :
  forall o,
    Schema.get k (fold_left assign l o)
    = match Schema.get k l with
      | Some v => Some v
      | None => Schema.get k o
      end.
Proof.
  induction l as [|[k' v] l IH]; intros o; simpl; [reflexivity|].
  rewrite IH, get_assign. cbn [fst snd].
  destruct (Schema.get k l); [reflexivity|].
  destruct (String.eqb k' k); reflexivity.
Qed.

Lemma assign_keys_NoDup (o : object) (kv : string * json) :
  NoDup (map fst o) -> NoDup (map fst (assign o kv)).
Proof.
  intros H. unfold assign.
  destruct (existsb (fun p => String.eqb (fst p) (fst kv)) o) eqn:E.
  - rewrite map_map.
    rewrite (map_ext _ fst); [exact H|].
    intros [k0 v0]. simpl. destruct (String.eqb k0 (fst kv)); reflexivity.
  - rewrite map_app. simpl.
    apply NoDup_app; [exact H | constructor; [intros []| constructor] |].
    intros k Hin [Hk|[]]. subst k.
    apply in_map_iff in Hin. destruct Hin as ([k0 v0] & Hk0 & Hin).
    simpl in Hk0. subst k0.
    assert (Hex : existsb (fun p => String.eqb (fst p) (fst kv)) o = true)
      by (apply existsb_exists; exists (fst kv, v0); split;
          [exact Hin | apply String.eqb_refl]).
    congruence.
Qed.

Lemma fold_assign_keys_NoDup (l : object) :
  forall o, NoDup (map fst o) -> NoDup (map fst (fold_left assign l o)).
Proof.
  induction l as [|kv l IH]; intros o H; simpl; [exact H|].
  apply IH. apply assign_keys_NoDup. exact H.
Qed.

(** In [{ ...a, ...b }] a property of [b] overrides the property of [a]
    with the same key, a property of [a] that [b] does not have stays,
    and no key stands twice. *)
Theorem spread_get (a b : object) (k : string) :
  Schema.get k (spread a b)
  = match Schema.get k b with
    | Some v => Some v
    | None => Schema.get k a
    end
  /\ NoDup (map fst (spread a b)).
Proof.
  unfold spread. split.
  - rewrite !get_fold_assign. simpl.
    destruct (Schema.get k b); [reflexivity|].
    destruct (Schema.get k a); reflexivity.
  - apply fold_assign_keys_NoDup, fold_assign_keys_NoDup. constructor.
Qed.

(** ** What is drawn for a placement *)

Section DrawingFacts.

Variable element_props : ReactElement -> object.

(** the child drawn for a widget: its catalog widget bears the name read
    from the key, and its props are the spread *)
Lemma draw_child_Some (availableWidgets : list Widget) (editMode : bool)
    (gw : GridWidget) (child : Child) :
  draw_child element_props availableWidgets editMode gw = Some child ->
  In (child_widget child) availableWidgets
  /\ name (child_widget child) = getWidgetNameFromKey (i (layout gw))
  /\ child_key child = i (layout gw)
  /\ child_props child
     = spread (element_props (component (child_widget child)))
              (settings_or_empty (settings gw)).
Proof.
  unfold draw_child, getWidgetByName.
  destruct (find _ availableWidgets) as [widget|] eqn:E; [|discriminate].
  intros H. inversion H; subst. cbn [child_widget child_key child_props].
  apply find_some in E. destruct E as [Hin Hname].
  apply String.eqb_eq in Hname. auto.
Qed.

Lemma draw_child_of_name (availableWidgets : list Widget) (editMode : bool)
    (gw : GridWidget) (widget : Widget) (rest : string) :
  i (layout gw) = name widget ++ "__" ++ rest ->
  well_named (name widget) = true ->
  find_widget availableWidgets (name widget) = Some widget ->
  exists child,
    draw_child element_props availableWidgets editMode gw = Some child
    /\ child_widget child = widget.
Proof.
  intros Hi Hwell Hfind. unfold draw_child, getWidgetByName.
  rewrite Hi. rewrite (proj2 (name_from_key_iff (name widget) rest) Hwell).
  unfold find_widget in Hfind. rewrite Hfind. eexists. split; reflexivity.
Qed.

(** Each placement of the default layout is drawn with the catalog
    widget that its own configuration entry resolved to, as a child whose
    key is the id of the placement, when the names of the catalog hold no
    "__" and do not end in "_": the placements are, one for one and in
    order, those built for the entries that resolve, and what is drawn
    for the placement of an entry is the widget of that entry. *)
Theorem default_placement_drawn
    (config : list LayoutConfiguration) (availableWidgets : list Widget)
    (r : Rng) (editMode : bool) :
  Forall (fun wd => well_named (name wd) = true) availableWidgets ->
  Forall2
    (fun gw e =>
       let '(idx, c, widget) := e in
       nth_error config idx = Some c
       /\ resolve availableWidgets c = Some widget
       /\ (exists sfx, gw = default_widget c idx widget sfx)
       /\ exists child,
            draw_child element_props availableWidgets editMode gw = Some child
            /\ child_widget child = widget
            /\ id gw = Some (child_key child))
    (fst (convertConfigToDefaultWidgets config availableWidgets r))
    (resolved availableWidgets config).
Proof.
  intros Hnames.
  apply (@Forall2_impl_right _ _ _ _ _ _ (build_entries config availableWidgets r)).
  intros gw [[idx c] widget] _ (Hn & Hr & sfx & ->).
  split; [exact Hn|]. split; [exact Hr|]. split; [eauto|].
  assert (Hfind : find_widget availableWidgets (name widget) = Some widget
                  /\ In widget availableWidgets).
  { unfold resolve in Hr.
    destruct (component_name c) as [nm|]; [|discriminate].
    destruct (negb (JS.truthy nm)); [discriminate|].
    pose proof Hr as Hr'. unfold find_widget in Hr'.
    apply find_some in Hr'. destruct Hr' as [Hin' Heq].
    apply String.eqb_eq in Heq. rewrite Heq. auto. }
  destruct Hfind as [Hfind Hin'].
  destruct (@draw_child_of_name availableWidgets editMode
              (default_widget c idx widget sfx) widget
              (JS.string_of_nat idx ++ sfx)) as (child & Hchild & Hw).
  - reflexivity.
  - rewrite Forall_forall in Hnames. apply Hnames. exact Hin'.
  - exact Hfind.
  - exists child. repeat split; auto.
    apply draw_child_Some in Hchild. destruct Hchild as (_ & _ & Hk & _).
    rewrite Hk. reflexivity.
Qed.

(** A widget whose name holds "__" or ends in "_" is never drawn for
    the placements made of it, by the builder or by [add]: what is drawn
    for them, if anything, is a widget of another name. *)
Theorem ill_named_never_drawn
    (availableWidgets : list Widget) (editMode : bool)
    (widget : Widget) (gw : GridWidget) (child : Child) :
  well_named (name widget) = false ->
  (exists c idx sfx, gw = default_widget c idx widget sfx)
  \/ (exists ws em sfx, gw = added_widget ws em widget sfx) ->
  draw_child element_props availableWidgets editMode gw = Some child ->
  name (child_widget child) <> name widget.
Proof.
  intros Hill Hgw Hchild.
  apply draw_child_Some in Hchild. destruct Hchild as (_ & Hname & _).
  rewrite Hname. intros Heq.
  assert (Hkey : exists rest, i (layout gw) = name widget ++ "__" ++ rest).
  { destruct Hgw as [(c & idx & sfx & ->)|(ws & em & sfx & ->)];
      eexists; reflexivity. }
  destruct Hkey as (rest & Hkey). rewrite Hkey in Heq.
  apply name_from_key_iff in Heq. congruence.
Qed.

(** In the props of a drawn widget a saved setting overrides the prop of
    the component with the same key, and the other props of the component
    pass. *)
Theorem drawn_props (availableWidgets : list Widget) (editMode : bool)
    (gw : GridWidget) (child : Child) (k : string) :
  draw_child element_props availableWidgets editMode gw = Some child ->
  Schema.get k (child_props child)
  = match Schema.get k (settings_or_empty (settings gw)) with
    | Some v => Some v
    | None => Schema.get k (element_props (component (child_widget child)))
    end.
Proof.
  intros Hchild. apply draw_child_Some in Hchild.
  destruct Hchild as (_ & _ & _ & Hprops). rewrite Hprops.
  apply spread_get.
Qed.

(** The grid is handed one layout for each widget, in order, also for
    the widgets for which nothing is drawn; a child is missing exactly
    when no widget of the catalog bears the name read from the key. *)
Theorem draw_grid (props : Props) (rd : Render) (hk : Hooks) :
  let v := draw element_props props rd hk in
  grid_layouts v = map layout (widgets rd)
  /\ List.length (grid_children v) = List.length (grid_layouts v)
  /\ Forall2 (fun gw child =>
                child = None <->
                Forall (fun wd => name wd <> getWidgetNameFromKey (i (layout gw)))
                       (availableWidgets props))
             (widgets rd) (grid_children v).
Proof.
  simpl. split; [reflexivity|]. split; [rewrite !length_map; reflexivity|].
  induction (widgets rd) as [|gw ws IH]; simpl; constructor; [|exact IH].
  unfold draw_child, getWidgetByName.
  destruct (find _ (availableWidgets props)) as [wd|] eqn:E; split.
  - discriminate.
  - intros HF. apply find_some in E. destruct E as [Hin Heq].
    apply String.eqb_eq in Heq. rewrite Forall_forall in HF.
    elim (HF wd Hin Heq).
  - intros _. apply Forall_forall. intros wd Hin Heq.
    apply (find_none _ _ E) in Hin. simpl in Hin.
    rewrite Heq, String.eqb_refl in Hin. discriminate.
  - reflexivity.
Qed.

End DrawingFacts.

(** ** The catalog *)

Lemma selectByExtensionName_In (elements : list Element) (elem : Element)
    (nm : string) :
  In (elem, nm) (selectByExtensionName elements)
  <-> In elem elements /\ extensionName (element elem) = Some nm.
Proof.
  induction elements as [|e elements IH]; simpl; [tauto|].
  destruct (extensionName (element e)) as [n|] eqn:E; simpl; rewrite IH.
  - split.
    + intros [H|H]; [inversion H; subst; auto | tauto].
    + intros [[H|H] Hn]; [subst; left; congruence | tauto].
  - split; [tauto|].
    intros [[H|H] Hn]; [subst; congruence | tauto].
Qed.

Section CatalogFacts.

Variable WidgetSchema_parse : Widget -> option Widget.

Lemma parse_selected_None (selected : list (Element * string)) :
  parse_selected WidgetSchema_parse selected = None
  <-> exists elem nm,
        In (elem, nm) selected
        /\ WidgetSchema_parse (widget_record elem nm) = None.
Proof.
  induction selected as [|[e n] selected IH]; simpl.
  - split; [discriminate | intros (elem & nm & [] & _)].
  - destruct (WidgetSchema_parse (widget_record e n)) as [wd|] eqn:E.
    + destruct (parse_selected WidgetSchema_parse selected) as [wds|].
      * split; [discriminate|].
        intros (elem & nm & [H|H] & Hp); [inversion H; subst; congruence|].
        destruct IH as [_ IH]. discriminate IH. eauto.
      * split; [|reflexivity]. intros _.
        destruct IH as [IH _]. destruct (IH eq_refl) as (elem & nm & Hin & Hp).
        eauto.
    + split; [|reflexivity]. intros _. exists e, n. auto.
Qed.

Lemma parse_selected_Some (selected : list (Element * string)) :
  forall wds,
    parse_selected WidgetSchema_parse selected = Some wds ->
    Forall2 (fun wd en =>
               WidgetSchema_parse (widget_record (fst en) (snd en)) = Some wd)
            wds selected.
Proof.
  induction selected as [|[e n] selected IH]; simpl; intros wds H.
  - inversion H. constructor.
  - destruct (WidgetSchema_parse (widget_record e n)) as [wd|] eqn:E;
      [|discriminate].
    destruct (parse_selected WidgetSchema_parse selected) as [wds'|];
      [|discriminate].
    inversion H; subst. constructor; [exact E | apply IH; reflexivity].
Qed.

(** The catalog is all or nothing: it is the widgets that the schema
    returns for the elements bearing an extension name, one for each and
    in their order, if the schema accepts them all; if it rejects the
    record of one such element, the error leaves the filter and there is
    no catalog.  An element without an extension name plays no part. *)
Theorem catalog_all_or_nothing (elements : list Element) :
  (availableWidgetsFilter WidgetSchema_parse elements = None
   <-> exists elem nm,
         In elem elements
         /\ extensionName (element elem) = Some nm
         /\ WidgetSchema_parse (widget_record elem nm) = None)
  /\ (forall wds,
        availableWidgetsFilter WidgetSchema_parse elements = Some wds ->
        Forall2 (fun wd en =>
                   WidgetSchema_parse (widget_record (fst en) (snd en)) = Some wd)
                wds (selectByExtensionName elements)
        /\ List.length wds
           = List.length
               (filter (fun elem =>
                          match extensionName (element elem) with
                          | Some _ => true
                          | None => false
                          end) elements)).
Proof.
  unfold availableWidgetsFilter. split.
  - rewrite parse_selected_None. split.
    + intros (elem & nm & Hin & Hp). apply selectByExtensionName_In in Hin.
      exists elem, nm. tauto.
    + intros (elem & nm & Hin & Hn & Hp). exists elem, nm. split; [|exact Hp].
      apply selectByExtensionName_In. auto.
  - intros wds H. apply parse_selected_Some in H. split; [exact H|].
    rewrite (Forall2_length H). clear H wds.
    induction elements as [|e elements IH]; simpl; [reflexivity|].
    destruct (extensionName (element e)); simpl; rewrite IH; reflexivity.
Qed.

End CatalogFacts.

(** ** What the handlers write is what is shown *)

Lemma removed_valid (ws : list GridWidget) (k : string) :
  widgets_valid ws = true -> widgets_valid (removed ws k) = true.
Proof.
  unfold widgets_valid, removed. rewrite !forallb_forall.
  intros H gw Hin. apply filter_In in Hin. apply H. tauto.
Qed.

Lemma with_mode_valid (mode : bool) (ws : list GridWidget) :
  widgets_valid ws = true -> widgets_valid (map (with_mode mode) ws) = true.
Proof.
  unfold widgets_valid. rewrite !forallb_forall.
  intros H gw Hin. apply in_map_iff in Hin. destruct Hin as (gw0 & <- & Hin).
  apply H in Hin. destruct gw0 as [[k|] l [s|]]; try discriminate. exact Hin.
Qed.

Lemma settings_saved_valid (ws : list GridWidget) (k : string) (s : object) :
  forall ws', settings_saved ws k s = Some ws' ->
              widgets_valid ws = true -> widgets_valid ws' = true.
Proof.
  unfold widgets_valid.
  induction ws as [|gw ws IH]; simpl; intros ws' H Hv; [discriminate|].
  apply andb_true_iff in Hv. destruct Hv as [Hgw Hws].
  destruct (id_differs k gw).
  - destruct (settings_saved ws k s) as [ws0|]; [|discriminate].
    inversion H; subst. simpl. rewrite Hgw. apply (IH ws0 eq_refl Hws).
  - inversion H; subst. simpl. rewrite Hws, andb_true_r.
    destruct gw as [[k0|] l [s0|]]; try discriminate. exact Hgw.
Qed.

Lemma widget_valid_finite (gw : GridWidget) :
  widget_valid gw = true ->
  JS.isFinite (y (layout gw)) = true /\ JS.isFinite (h (layout gw)) = true.
Proof.
  unfold widget_valid, layout_valid.
  destruct (id gw), (settings gw); try discriminate.
  destruct (JS.isFinite (x (layout gw))), (JS.isFinite (y (layout gw))),
    (JS.isFinite (w (layout gw))), (JS.isFinite (h (layout gw)));
    simpl; auto; discriminate.
Qed.

Lemma nullish_finite (o : option Z) (d : Z) :
  exists z, JS.nullish o (JS.Fin d) = JS.Fin z.
Proof. destruct o; simpl; eauto. Qed.

(** the widget added to a valid list that is not empty is valid *)
Lemma added_widget_valid (ws : list GridWidget) (editMode : bool)
    (widget : Widget) (sfx : string) :
  ws <> [] -> widgets_valid ws = true ->
  widget_valid (added_widget ws editMode widget sfx) = true.
Proof.
  intros Hne Hv.
  destruct (@max_list_finite
              (map (fun gw => JS.add (y (layout gw)) (h (layout gw))) ws))
    as (z & Hz & _).
  - destruct ws; [congruence | discriminate].
  - apply Forall_map. apply Forall_forall. intros gw Hin.
    unfold widgets_valid in Hv. rewrite forallb_forall in Hv.
    destruct (widget_valid_finite gw (Hv gw Hin)) as [Hy Hh].
    destruct (y (layout gw)), (h (layout gw)); try discriminate. reflexivity.
  - unfold widget_valid, added_widget, layout_valid.
    cbn [id settings layout x y w h minW maxW minH maxH].
    rewrite Hz.
    destruct (nullish_finite (maxWidth widget) JS.MAX_VALUE) as (a & ->).
    destruct (nullish_finite (width widget) 12) as (b & ->).
    destruct (nullish_finite (maxHeight widget) JS.MAX_VALUE) as (c & ->).
    destruct (nullish_finite (height widget) 4) as (d & ->).
    destruct (minWidth widget), (maxWidth widget),
             (minHeight widget), (maxHeight widget); reflexivity.
Qed.

Lemma widgets_valid_app (a b : list GridWidget) :
  widgets_valid (a ++ b) = widgets_valid a && widgets_valid b.
Proof. unfold widgets_valid. apply forallb_app. Qed.

Lemma merged_valid (ws : list GridWidget) (newLayout : list Layout) :
  layouts_match ws newLayout = true ->
  widgets_valid (merged ws newLayout) = true.
Proof.
  unfold layouts_match, widgets_valid, merged. rewrite !forallb_forall.
  intros H gw Hin. apply in_map_iff in Hin. destruct Hin as (l & <- & Hin).
  apply H in Hin. apply andb_true_iff in Hin. destruct Hin as [Hl Hf].
  unfold merged_widget, widget_valid.
  destruct (find_by_id ws (i l)) as [gw0|] eqn:E; [|discriminate].
  cbn [id settings layout].
  unfold find_by_id in E. apply find_some in E. destruct E as [_ E].
  destruct (id gw0); [|discriminate].
  destruct (settings gw0); [exact Hl | discriminate].
Qed.

(** when the store holds a valid list, that list is what is shown *)
Lemma shown_stored (props : Props) (hk : Hooks) (ws : list GridWidget) (r : Rng) :
  homeSnapshot hk = stored (save ws) -> widgets_valid ws = true ->
  shown props hk r = ws.
Proof.
  intros Hs Hv. unfold shown. rewrite render_widgets, Hs.
  apply load_saved. exact Hv.
Qed.

Lemma dispatch_handler (props : Props) (ev : Event) (hk : Hooks) (r : Rng) :
  let rd := fst (render props hk r) in
  fst (dispatch props ev hk r)
  = match ev with
    | AddWidget widget => fst (handleAdd rd widget hk (snd (render props hk r)))
    | RemoveWidget widgetId => handleRemove rd widgetId hk
    | SettingsSave widgetId s => handleSettingsSave rd widgetId s hk
    | ClearLayout => clearLayout hk
    | ChangeEditMode mode => changeEditMode rd mode hk
    | LayoutChange newLayout => handleLayoutChange rd newLayout hk
    | RestoreDefault => handleRestoreDefaultConfig rd hk
    | OpenAddWidgetDialog open => setAddWidgetDialogOpen open hk
    end.
Proof.
  simpl. unfold dispatch, bind, ret.
  destruct (render props hk r) as [rd r']. destruct ev; reflexivity.
Qed.

Lemma store_stays_valid (props : Props) (ev : Event) (hk : Hooks) (r : Rng) :
  store_valid hk ->
  keeps_valid (editMode hk) (shown props hk r) ev = true ->
  store_valid (fst (dispatch props ev hk r)).
Proof.
  intros (ws & Hs & Hv) Hev.
  rewrite (shown_stored props hk r Hs Hv) in Hev.
  rewrite dispatch_handler.
  assert (Hw : widgets (fst (render props hk r)) = ws)
    by (apply (shown_stored props hk r Hs Hv)).
  destruct ev as [widget|k|k s| |mode|nl| |open]; simpl in Hev.
  - unfold handleAdd, bind, ret, random_suffix. cbn [fst]. rewrite Hw.
    eexists. split; [reflexivity|].
    rewrite widgets_valid_app, Hv. unfold widgets_valid at 1. simpl.
    rewrite andb_true_r. apply added_widget_valid; [|exact Hv].
    destruct ws; [discriminate | discriminate].
  - unfold handleRemove. rewrite Hw. eexists. split; [reflexivity|].
    apply removed_valid. exact Hv.
  - unfold handleSettingsSave. rewrite Hw.
    destruct (settings_saved ws k s) as [ws'|] eqn:E.
    + eexists. split; [reflexivity|]. eapply settings_saved_valid; eauto.
    + exists ws. auto.
  - exists []. split; reflexivity.
  - unfold changeEditMode. rewrite Hw. eexists. split; [reflexivity|].
    apply with_mode_valid. exact Hv.
  - unfold handleLayoutChange. destruct (editMode hk); simpl in Hev.
    + rewrite Hw. eexists. split; [reflexivity|]. apply merged_valid. exact Hev.
    + exists ws. auto.
  - unfold handleRestoreDefaultConfig. eexists. split; [reflexivity|].
    apply render_defaultLayout_valid.
  - exists ws. auto.
Qed.

(** The store keeps holding a valid list: when it holds one, it holds
    one after every run of events, as long as no event is an [add] to an
    empty list or a layout change applied with items that match no widget
    or are not finite; so what is shown after the run is the list the
    last handler wrote, not the default. *)
Theorem run_stays_valid (props : Props) (evs : list Event) :
  forall (hk : Hooks) (r : Rng),
    store_valid hk ->
    run_keeps_valid props evs hk r ->
    store_valid (fst (run props evs hk r))
    /\ forall r1 r2,
         shown props (fst (run props evs hk r)) r1
         = shown props (fst (run props evs hk r)) r2.
Proof.
  induction evs as [|ev evs IH]; intros hk r Hv Hrun.
  - simpl. split; [exact Hv|]. intros r1 r2.
    destruct Hv as (ws & Hs & Hws).
    rewrite (shown_stored props hk r1 Hs Hws), (shown_stored props hk r2 Hs Hws).
    reflexivity.
  - destruct Hrun as [Hev Hrun]. simpl. unfold bind.
    pose proof (@store_stays_valid props ev hk r Hv Hev) as Hv'.
    destruct (dispatch props ev hk r) as [hk' r']. simpl in *.
    apply IH; assumption.
Qed.

Lemma run_stays_valid_witness :
  let props := {| config := Some clock_config; availableWidgets := [clock] |} in
  let evs := [ChangeEditMode false; AddWidget clock;
              LayoutChange [skewed_layout]; RemoveWidget "clock__0k0"] in
  store_valid (fst (run props evs editing_hooks some_rng))
  /\ forall r1 r2,
       shown props (fst (run props evs editing_hooks some_rng)) r1
       = shown props (fst (run props evs editing_hooks some_rng)) r2.
Proof.
  apply (@run_stays_valid
           {| config := Some clock_config; availableWidgets := [clock] |}
           [ChangeEditMode false; AddWidget clock;
            LayoutChange [skewed_layout]; RemoveWidget "clock__0k0"]
           editing_hooks some_rng).
  - exists [with_mode true clock_placement]. split; reflexivity.
  - vm_compute. repeat split.
Defined.

(** ** Adding and removing *)

Lemma add_shown_list (props : Props) (widget : Widget) (hk : Hooks) (r r' : Rng) :
  shown props hk r <> [] -> widgets_valid (shown props hk r) = true ->
  exists gw,
    shown props (fst (dispatch props (AddWidget widget) hk r)) r'
    = (shown props hk r ++ [gw])%list
    /\ exists k, id gw = Some k
                 /\ exists sfx,
                      gw = added_widget (shown props hk r) (editMode hk) widget sfx.
Proof.
  intros Hne Hv. rewrite dispatch_handler.
  unfold handleAdd, bind, ret, random_suffix. cbn [fst].
  fold (shown props hk r).
  eexists. split.
  - apply shown_after_setWidgets.
    rewrite widgets_valid_app, Hv. unfold widgets_valid at 1. simpl.
    rewrite andb_true_r. apply added_widget_valid; assumption.
  - eexists. split; [reflexivity|]. eexists. reflexivity.
Qed.

(** [add] on a valid list that is not empty: the next render shows the
    list followed by the new widget, whose sizes are the defaults 12 by 4
    or the widget's own, cut to its maxima; the dialog is closed and the
    edit mode is the same. *)
Theorem add_shown (props : Props) (widget : Widget) (hk : Hooks) (r r' : Rng) :
  let ws := shown props hk r in
  let hk' := fst (dispatch props (AddWidget widget) hk r) in
  ws <> [] -> widgets_valid ws = true ->
  exists gw,
    shown props hk' r' = (ws ++ [gw])%list
    /\ (exists sfx, gw = added_widget ws (editMode hk) widget sfx)
    /\ id gw = Some (i (layout gw))
    /\ settings gw = Some []
    /\ w (layout gw)
       = JS.min (JS.nullish (maxWidth widget) (JS.Fin JS.MAX_VALUE))
                (JS.nullish (width widget) (JS.Fin 12))
    /\ (forall m, maxWidth widget = Some m -> JS.leb (w (layout gw)) (JS.Fin m) = true)
    /\ (forall m, maxHeight widget = Some m -> JS.leb (h (layout gw)) (JS.Fin m) = true)
    /\ (maxWidth widget = None -> width widget = None -> w (layout gw) = JS.Fin 12)
    /\ (maxHeight widget = None -> height widget = None -> h (layout gw) = JS.Fin 4)
    /\ editMode hk' = editMode hk
    /\ addWidgetDialogOpen hk' = false.
Proof.
  intros ws hk' Hne Hv.
  destruct (@add_shown_list props widget hk r r' Hne Hv)
    as (gw & Hshown & k & Hk & sfx & Hgw).
  exists gw. split; [exact Hshown|]. split; [eauto|].
  subst gw. repeat split; try reflexivity.
  - intros m Hm. cbn [layout w added_widget]. rewrite Hm.
    destruct (nullish_finite (width widget) 12) as (b & ->).
    simpl. apply Z.leb_le. lia.
  - intros m Hm. cbn [layout h added_widget]. rewrite Hm.
    destruct (nullish_finite (height widget) 4) as (b & ->).
    simpl. apply Z.leb_le. lia.
  - intros H1 H2. cbn [layout w added_widget]. rewrite H1, H2. reflexivity.
  - intros H1 H2. cbn [layout h added_widget]. rewrite H1, H2. reflexivity.
  - subst hk'. rewrite dispatch_handler. reflexivity.
  - subst hk'. rewrite dispatch_handler. reflexivity.
Qed.

Lemma removed_fresh (ws : list GridWidget) (k : string) :
  Forall (fun gw => id gw <> Some k) ws -> removed ws k = ws.
Proof.
  unfold removed. induction 1 as [|gw ws Hgw HF IH]; simpl; [reflexivity|].
  assert (Hd : id_differs k gw = true).
  { unfold id_differs. destruct (id gw) as [k0|]; [|reflexivity].
    apply negb_true_iff, String.eqb_neq. congruence. }
  rewrite Hd, IH. reflexivity.
Qed.

(** Removing the widget just added gives the list back, when its id is
    new to the list. *)
Theorem add_then_remove (props : Props) (widget : Widget) (hk : Hooks)
    (r r1 r2 : Rng) :
  let ws := shown props hk r in
  let hk1 := fst (dispatch props (AddWidget widget) hk r) in
  ws <> [] -> widgets_valid ws = true ->
  exists k,
    (exists gw, shown props hk1 r1 = (ws ++ [gw])%list /\ id gw = Some k)
    /\ (Forall (fun gw => id gw <> Some k) ws ->
        shown props (fst (dispatch props (RemoveWidget k) hk1 r1)) r2 = ws).
Proof.
  intros ws hk1 Hne Hv. subst ws hk1.
  destruct (@add_shown_list props widget hk r r1 Hne Hv)
    as (gw & Hshown & k & Hk & Hgw).
  exists k. split; [eauto|]. intros Hfresh.
  rewrite dispatch_handler. unfold handleRemove.
  change (widgets (fst (render props
                          (fst (dispatch props (AddWidget widget) hk r)) r1)))
    with (shown props (fst (dispatch props (AddWidget widget) hk r)) r1).
  rewrite Hshown.
  assert (Hrem : removed (shown props hk r ++ [gw]) k = shown props hk r).
  { unfold removed. rewrite filter_app. fold (removed (shown props hk r) k).
    rewrite (removed_fresh Hfresh). simpl.
    unfold id_differs. rewrite Hk, String.eqb_refl. simpl.
    apply app_nil_r. }
  rewrite Hrem. apply shown_after_setWidgets. exact Hv.
Qed.

(** ** Saving settings *)





(** ** The edit mode across renders and reloads *)

Lemma editModeOn_with_mode (mode : bool) (ws : list GridWidget) :
  editModeOn (map (with_mode mode) ws) = mode && negb (no_widgets ws).
Proof.
  unfold editModeOn. destruct ws as [|gw ws]; simpl.
  - rewrite andb_false_r. reflexivity.
  - destruct mode; simpl; [reflexivity|].
    induction ws as [|gw' ws IH]; simpl; [reflexivity | exact IH].
Qed.

Lemma editModeOn_false (ws : list GridWidget) :
  Forall (flags_are false) ws -> editModeOn ws = false.
Proof.
  unfold editModeOn. induction 1 as [|gw ws [_ Hr] HF IH]; simpl; [reflexivity|].
  rewrite Hr. exact IH.
Qed.

Lemma mount_editMode (props : Props) (snapshot : StorageValueSnapshot) (r : Rng) :
  fst (mount props snapshot r)
  = {| homeSnapshot := snapshot;
       editMode := editModeOn (load snapshot (defaultLayout
                     (fst (render props
                             {| homeSnapshot := snapshot; editMode := false;
                                addWidgetDialogOpen := false |} r))));
       addWidgetDialogOpen := false |}.
Proof.
  unfold mount, bind, ret.
  pose proof (render_widgets props
                {| homeSnapshot := snapshot; editMode := false;
                   addWidgetDialogOpen := false |} r) as H.
  cbn [homeSnapshot] in H.
  destruct (render props _ r) as [rd r']. cbn [fst] in *.
  rewrite H. reflexivity.
Qed.

(** [setEditMode(mode)] on a valid list changes the two flags of every
    widget and nothing else of it, and the next render shows that; a
    reload then starts in the edit mode [mode], except that with no
    widget it starts out of the edit mode. *)
Theorem edit_mode_survives_reload (props : Props) (mode : bool) (hk : Hooks)
    (r r1 r2 : Rng) :
  let ws := shown props hk r in
  let hk' := fst (dispatch props (ChangeEditMode mode) hk r) in
  widgets_valid ws = true ->
  shown props hk' r1 = map (with_mode mode) ws
  /\ Forall2 (fun gw gw' =>
                id gw' = id gw /\ settings gw' = settings gw
                /\ layout gw' = layout (with_mode mode gw)
                /\ i (layout gw') = i (layout gw)
                /\ (x (layout gw'), y (layout gw'), w (layout gw'), h (layout gw'))
                   = (x (layout gw), y (layout gw), w (layout gw), h (layout gw)))
             ws (shown props hk' r1)
  /\ editMode (fst (mount props (homeSnapshot hk') r2))
     = mode && negb (no_widgets ws).
Proof.
  intros ws hk' Hv. subst ws hk'. rewrite dispatch_handler.
  unfold changeEditMode. fold (shown props hk r).
  assert (Hshown : forall r0,
             shown props (setWidgets (map (with_mode mode) (shown props hk r))
                            (setEditMode mode hk)) r0
             = map (with_mode mode) (shown props hk r)).
  { intros r0. apply shown_after_setWidgets. apply with_mode_valid. exact Hv. }
  split; [apply Hshown|]. split.
  - rewrite Hshown. clear. induction (shown props hk r) as [|gw ws IH]; simpl;
      constructor; [|exact IH]. repeat split.
  - rewrite mount_editMode. cbn [editMode homeSnapshot setWidgets].
    rewrite load_saved by (apply with_mode_valid; exact Hv).
    apply editModeOn_with_mode.
Qed.

(** On a first visit, when the store has no value, the default layout is
    shown and the component starts out of the edit mode with the dialog
    closed; without a configuration there is no widget and the message
    that says so is drawn. *)
Theorem first_visit (element_props : ReactElement -> object)
    (props : Props) (r r' : Rng) :
  let hk := fst (mount props {| presence := absent; value := None |} r) in
  let rd := fst (render props hk r') in
  editMode hk = false
  /\ addWidgetDialogOpen hk = false
  /\ widgets rd = defaultLayout rd
  /\ defaultLayout rd
     = match config props with
       | Some c => fst (convertConfigToDefaultWidgets c (availableWidgets props) r')
       | None => []
       end
  /\ (config props = None ->
      noWidgetsMessage (draw element_props props rd hk) = true
      /\ grid_children (draw element_props props rd hk) = []).
Proof.
  simpl. rewrite mount_editMode. cbn [editMode addWidgetDialogOpen].
  split; [|split; [reflexivity|split; [|split]]].
  - cbn [load presence]. apply editModeOn_false.
    rewrite render_defaultLayout.
    destruct (config props); [apply build_flags | constructor].
  - rewrite render_widgets. reflexivity.
  - apply render_defaultLayout.
  - intros Hc. unfold draw. cbn [noWidgetsMessage grid_children editMode].
    rewrite !render_widgets. cbn [homeSnapshot load presence].
    rewrite !render_defaultLayout, Hc. split; reflexivity.
Qed.

(** [restoreDefault()] in the edit mode leaves the component in the edit
    mode and shows widgets that are all locked: neither draggable nor
    resizable; a reload then starts out of the edit mode. *)
Theorem restore_default_in_edit_mode (props : Props) (hk : Hooks)
    (r r1 r2 : Rng) :
  let hk' := fst (dispatch props RestoreDefault hk r) in
  editMode hk = true ->
  editMode hk' = true
  /\ Forall (flags_are false) (shown props hk' r1)
  /\ editMode (fst (mount props (homeSnapshot hk') r2)) = false.
Proof.
  intros hk' Hmode. subst hk'. rewrite dispatch_handler.
  unfold handleRestoreDefaultConfig.
  assert (Hflags : Forall (flags_are false) (defaultLayout (fst (render props hk r)))).
  { rewrite render_defaultLayout.
    destruct (config props); [apply build_flags | constructor]. }
  split; [exact Hmode|]. split.
  - rewrite shown_after_setWidgets by apply render_defaultLayout_valid.
    exact Hflags.
  - rewrite mount_editMode. cbn [editMode homeSnapshot setWidgets].
    rewrite load_saved by apply render_defaultLayout_valid.
    apply editModeOn_false. exact Hflags.
Qed.

(** ** Layout changes that name the widgets shown *)

Lemma find_by_id_unique (ws : list GridWidget) (gw : GridWidget) (k : string) :
  NoDup (map id ws) -> In gw ws -> id gw = Some k ->
  find_by_id ws k = Some gw.
Proof.
  unfold find_by_id.
  induction ws as [|g ws IH]; simpl; intros Hnd Hin Hid; [tauto|].
  inversion Hnd as [|a l Hnotin Hnd']; subst.
  destruct Hin as [->|Hin].
  - rewrite Hid, String.eqb_refl. reflexivity.
  - destruct (id g) as [k'|] eqn:Eg.
    + destruct (String.eqb k' k) eqn:Ek.
      * apply String.eqb_eq in Ek. subst k'.
        elim Hnotin. rewrite <- Hid. apply in_map. exact Hin.
      * apply IH; assumption.
    + apply IH; assumption.
Qed.

Lemma merged_relaid (ws0 : list GridWidget) :
  NoDup (map id ws0) ->
  forall ws newLayout,
    Forall2 (fun gw l => id gw = Some (i l)) ws newLayout ->
    (forall gw, In gw ws -> In gw ws0) ->
    merged ws0 newLayout = relaid ws newLayout.
Proof.
  intros Hnd ws newLayout HF.
  induction HF as [|gw l ws ls Hid HF IH]; intros Hsub; simpl; [reflexivity|].
  unfold merged in *. simpl. rewrite IH by (intros g Hg; apply Hsub; right; exact Hg).
  unfold merged_widget.
  rewrite (@find_by_id_unique ws0 gw (i l) Hnd (Hsub gw (or_introl eq_refl)) Hid).
  reflexivity.
Qed.

Lemma relaid_same (ws : list GridWidget) : relaid ws (map layout ws) = ws.
Proof.
  induction ws as [|[k l s] ws IH]; simpl; [reflexivity|].
  rewrite IH. reflexivity.
Qed.

Lemma relaid_maps (ws : list GridWidget) :
  forall ls, List.length ls = List.length ws ->
    map id (relaid ws ls) = map id ws
    /\ map settings (relaid ws ls) = map settings ws
    /\ map layout (relaid ws ls) = ls.
Proof.
  induction ws as [|gw ws IH]; intros [|l ls] Hlen; simpl in *;
    try discriminate; auto.
  destruct (IH ls) as (H1 & H2 & H3); [lia|].
  rewrite H1, H2, H3. auto.
Qed.

(** In the edit mode, a layout change whose items name the widgets shown,
    one by one and in order, the ids being distinct, gives every widget
    its new layout and keeps its id and its settings; when the items are
    the layouts already shown, the list written is the list shown. *)
Theorem layout_change_keeps_widgets
    (rd : Render) (newLayout : list Layout) (hk : Hooks) :
  editMode hk = true ->
  NoDup (map id (widgets rd)) ->
  Forall2 (fun gw l => id gw = Some (i l)) (widgets rd) newLayout ->
  exists out,
    handleLayoutChange rd newLayout hk = setWidgets out hk
    /\ map id out = map id (widgets rd)
    /\ map settings out = map settings (widgets rd)
    /\ map layout out = newLayout
    /\ (newLayout = map layout (widgets rd) -> out = widgets rd).
Proof.
  intros Hmode Hnd HF. exists (relaid (widgets rd) newLayout).
  unfold handleLayoutChange. rewrite Hmode.
  rewrite (@merged_relaid (widgets rd) Hnd (widgets rd) newLayout HF) by auto.
  split; [reflexivity|].
  destruct (relaid_maps (widgets rd) newLayout) as (H1 & H2 & H3).
  - symmetry. apply (Forall2_length HF).
  - repeat split; auto. intros ->. apply relaid_same.
Qed.

Lemma layout_change_keeps_widgets_witness :
  editMode editing_hooks = true
  /\ exists out,
       handleLayoutChange editing_render [skewed_layout] editing_hooks
       = setWidgets out editing_hooks
       /\ map id out = map id (widgets editing_render)
       /\ map settings out = map settings (widgets editing_render)
       /\ map layout out = [skewed_layout]
       /\ ([skewed_layout] = map layout (widgets editing_render) ->
           out = widgets editing_render).
Proof.
  split; [reflexivity|].
  apply (@layout_change_keeps_widgets editing_render [skewed_layout] editing_hooks).
  - reflexivity.
  - constructor; [intros [] | constructor].
  - constructor; [reflexivity | constructor].
Defined.

(** ** The properties at concrete inputs *)

Lemma default_placement_drawn_witness :
  map (fun gw => option_map child_widget (draw_child no_props [clock; banner] false gw))
    (fst (convertConfigToDefaultWidgets mixed_config [clock; banner] some_rng))
  = [Some banner; Some clock]
  /\ Forall2
       (fun gw e =>
          let '(idx, c, widget) := e in
          nth_error mixed_config idx = Some c
          /\ resolve [clock; banner] c = Some widget
          /\ (exists sfx, gw = default_widget c idx widget sfx)
          /\ exists child,
               draw_child no_props [clock; banner] false gw = Some child
               /\ child_widget child = widget
               /\ id gw = Some (child_key child))
       (fst (convertConfigToDefaultWidgets mixed_config [clock; banner] some_rng))
       (resolved [clock; banner] mixed_config).
Proof.
  split; [reflexivity|].
  apply (@default_placement_drawn no_props mixed_config [clock; banner] some_rng
           false).
  repeat constructor.
Defined.

Lemma ill_named_never_drawn_witness :
  well_named (name clock_underscore) = false
  /\ draw_child no_props [clock; clock_underscore] false underscore_placement
     = Some {| child_key := "clock___0k0"; child_edit := false;
               child_widget := clock; child_props := [];
               child_overlay := None |}
  /\ name clock <> name clock_underscore.
Proof.
  split; [reflexivity|]. split; [reflexivity|].
  apply (@ill_named_never_drawn no_props [clock; clock_underscore] false
           clock_underscore underscore_placement
           {| child_key := "clock___0k0"; child_edit := false;
              child_widget := clock; child_props := [];
              child_overlay := None |}).
  - reflexivity.
  - left. eexists _, 0%nat, "k0". reflexivity.
  - reflexivity.
Defined.

Lemma drawn_props_witness :
  exists child,
    draw_child (fun _ => [("zone", JStr "local"); ("size", JNum 2)])
      [clock] true tuned_placement = Some child
    /\ Schema.get "zone" (child_props child) = Some (JStr "UTC")
    /\ Schema.get "size" (child_props child) = Some (JNum 2).
Proof.
  eexists. split; [reflexivity|]. split.
  - rewrite (@drawn_props (fun _ => [("zone", JStr "local"); ("size", JNum 2)])
               [clock] true tuned_placement _ "zone" eq_refl).
    reflexivity.
  - reflexivity.
Defined.

Lemma catalog_all_or_nothing_witness :
  availableWidgetsFilter positive_bounds
    [anonymous_element; zero_width_element] = None
  /\ availableWidgetsFilter positive_bounds [anonymous_element] = Some [].
Proof.
  split; [|reflexivity].
  apply (proj1 (catalog_all_or_nothing positive_bounds
                  [anonymous_element; zero_width_element])).
  exists zero_width_element, "clock". split; [right; left; reflexivity|].
  split; reflexivity.
Defined.

Lemma add_shown_witness :
  shown clock_props editing_hooks some_rng <> []
  /\ widgets_valid (shown clock_props editing_hooks some_rng) = true
  /\ exists gw,
       shown clock_props
         (fst (dispatch clock_props (AddWidget clock) editing_hooks some_rng))
         some_rng
       = (shown clock_props editing_hooks some_rng ++ [gw])%list
       /\ y (layout gw) = JS.Fin 3
       /\ w (layout gw) = JS.Fin 4.
Proof.
  assert (Hne : shown clock_props editing_hooks some_rng <> [])
    by (vm_compute; discriminate).
  assert (Hv : widgets_valid (shown clock_props editing_hooks some_rng) = true)
    by (vm_compute; reflexivity).
  split; [exact Hne|]. split; [exact Hv|].
  destruct (@add_shown clock_props clock editing_hooks some_rng some_rng Hne Hv)
    as (gw & Hshown & (sfx & Hgw) & _).
  exists gw. split; [exact Hshown|]. subst gw. split; vm_compute; reflexivity.
Defined.

Lemma add_then_remove_witness :
  exists k,
    (exists gw,
       shown clock_props
         (fst (dispatch clock_props (AddWidget clock) editing_hooks some_rng))
         some_rng
       = (shown clock_props editing_hooks some_rng ++ [gw])%list
       /\ id gw = Some k)
    /\ (Forall (fun gw => id gw <> Some k)
               (shown clock_props editing_hooks some_rng) ->
        shown clock_props
          (fst (dispatch clock_props (RemoveWidget k)
                  (fst (dispatch clock_props (AddWidget clock)
                          editing_hooks some_rng)) some_rng)) some_rng
        = shown clock_props editing_hooks some_rng).
Proof.
  apply (@add_then_remove clock_props clock editing_hooks some_rng some_rng some_rng).
  - vm_compute. discriminate.
  - vm_compute. reflexivity.
Defined.

Lemma edit_mode_survives_reload_witness :
  shown clock_props
    (fst (dispatch clock_props (ChangeEditMode false) editing_hooks some_rng))
    some_rng
  = map (with_mode false) (shown clock_props editing_hooks some_rng)
  /\ editMode
       (fst (mount clock_props
               (homeSnapshot
                  (fst (dispatch clock_props (ChangeEditMode true)
                          editing_hooks some_rng))) some_rng))
     = true.
Proof.
  assert (Hv : widgets_valid (shown clock_props editing_hooks some_rng) = true)
    by (vm_compute; reflexivity).
  split.
  - apply (@edit_mode_survives_reload clock_props false editing_hooks
             some_rng some_rng some_rng Hv).
  - destruct (@edit_mode_survives_reload clock_props true editing_hooks
                some_rng some_rng some_rng Hv) as (_ & _ & H).
    rewrite H. vm_compute. reflexivity.
Defined.

Lemma restore_default_in_edit_mode_witness :
  editMode editing_hooks = true
  /\ editMode (fst (dispatch clock_props RestoreDefault editing_hooks some_rng))
     = true
  /\ Forall (flags_are false)
       (shown clock_props
          (fst (dispatch clock_props RestoreDefault editing_hooks some_rng))
          some_rng)
  /\ editMode
       (fst (mount clock_props
               (homeSnapshot
                  (fst (dispatch clock_props RestoreDefault editing_hooks
                          some_rng))) some_rng))
     = false.
Proof.
  split; [reflexivity|].
  apply (@restore_default_in_edit_mode clock_props editing_hooks
           some_rng some_rng some_rng).
  reflexivity.
Defined.
